(** * Bias Correction and Statistical Downscaling: a model of [xsd/bcsd.py]

    The module takes three gridded time series (observations, training
    data, predictions), regrids them with xESMF, and forms anomalies of the
    bias-corrected predictions.  The arrays are numpy [float64] arrays, so
    cell values are IEEE binary64 numbers ([PrimFloat.float]).  Objects are
    Python references: the harmonizer writes into the object it is given,
    so objects live in a store and the functions that touch them run in a
    state-and-exception monad.

    Collaborators whose code is not part of the module (the xESMF regridder,
    [xe.util.grid_2d], [quantile_mapping_by_group]) are section variables;
    the reductions of numpy and xarray whose rounding the module does not
    fix (means over time, rolling means) are the fields of the class
    [Numerics]. *)

From Stdlib Require Import ZArith List Bool Lia Floats.
From stdpp Require Import gmap strings list.

Local Open Scope string_scope.
Local Open Scope list_scope.
Local Open Scope nat_scope.

(** ** Exceptions and results *)

(** The exceptions the interpreter and numpy/xarray raise in this module,
    plus [LibraryError cls] for an exception class raised by a collaborator. *)
Inductive exn : Type :=
| TypeError
| ValueError
| IndexError
| KeyError
| AttributeError
| LibraryError (cls : string).

Definition exn_name (e : exn) : string :=
  match e with
  | TypeError => "TypeError"
  | ValueError => "ValueError"
  | IndexError => "IndexError"
  | KeyError => "KeyError"
  | AttributeError => "AttributeError"
  | LibraryError cls => cls
  end.

Inductive result (A : Type) : Type :=
| Ok (a : A)
| Raise (e : exn).
Arguments Ok {A} a.
Arguments Raise {A} e.

#[global] Instance result_ret : MRet result := fun A a => Ok a.
#[global] Instance result_bind : MBind result := fun A B f r =>
  match r with
  | Ok a => f a
  | Raise e => Raise e
  end.

(** [r] ends in an exception whose class is named [cls]. *)
Definition raises_class {A} (r : result A) (cls : string) : Prop :=
  ∃ e, r = Raise e ∧ exn_name e = cls.


(** ** Time stamps *)

Inductive Month : Type :=
| Jan | Feb | Mar | Apr | May | Jun | Jul | Aug | Sep | Oct | Nov | Dec.

#[global] Instance Month_eq_dec : EqDecision Month.
Proof. solve_decision. Defined.

Definition all_months : list Month :=
  [Jan; Feb; Mar; Apr; May; Jun; Jul; Aug; Sep; Oct; Nov; Dec].

(** The value of [time.month]: 1 for January, ..., 12 for December. *)
Definition month_number (m : Month) : Z :=
  match m with
  | Jan => 1 | Feb => 2 | Mar => 3 | Apr => 4 | May => 5 | Jun => 6
  | Jul => 7 | Aug => 8 | Sep => 9 | Oct => 10 | Nov => 11 | Dec => 12
  end.

Record Timestamp : Type := { ts_year : Z; ts_month : Month; ts_day : Z }.

#[global] Instance Timestamp_eq_dec : EqDecision Timestamp.
Proof. solve_decision. Defined.

(** Months elapsed since January of year 0. *)
Definition month_ordinal (t : Timestamp) : Z :=
  ts_year t * 12 + (month_number (ts_month t) - 1).

(** Consecutive time steps are chronological and at most one calendar month
    apart (daily or monthly cadence). *)
Fixpoint regular_cadence (ts : list Timestamp) : bool :=
  match ts with
  | t1 :: ((t2 :: _) as rest) =>
      (month_ordinal t1 <=? month_ordinal t2)%Z
      && (month_ordinal t2 <=? month_ordinal t1 + 1)%Z
      && regular_cadence rest
  | _ => true
  end.

(** A series at daily or monthly cadence whose first and last steps lie at
    least eleven calendar months apart: it covers twelve consecutive months. *)
Definition spans_full_year (ts : list Timestamp) : bool :=
  regular_cadence ts &&
  match ts, last ts with
  | t0 :: _, Some tn => (month_ordinal t0 + 11 <=? month_ordinal tn)%Z
  | _, _ => false
  end.

(** ** numpy arrays of [float64] *)

(** [a\[0\]] *)
Definition np_getitem0 (a : list float) : result float :=
  match a with
  | [] => Raise IndexError
  | x :: _ => Ok x
  end.

(** [a\[-1\]] *)
Definition np_getitem_last (a : list float) : result float :=
  match last a with
  | Some x => Ok x
  | None => Raise IndexError
  end.

(** [np.diff(a)]: [out\[i\] = a\[i+1\] - a\[i\]]. *)
Definition np_diff (a : list float) : list float :=
  zip_with (fun x y => (y - x)%float) a (tail a).

(** [np.append(a, x)] for a scalar [x]. *)
Definition np_append (a : list float) (x : float) : list float := a ++ [x].

(** [a - s] with the scalar [s] broadcast over [a]. *)
Definition np_sub_scalar (a : list float) (s : float) : list float :=
  (fun x => (x - s)%float) <$> a.

(** [np.minimum(x, y)] is [x if (x < y or isnan(x)) else y] and
    [np.maximum(x, y)] is [x if (x > y or isnan(x)) else y]: both propagate
    NaN, and of two equal values (the two zeros) the second is kept. *)
Definition np_minimum (x y : float) : float :=
  if (x <? y)%float || PrimFloat.is_nan x then x else y.

Definition np_maximum (x y : float) : float :=
  if (y <? x)%float || PrimFloat.is_nan x then x else y.

(** [a.min()] and [a.max()]: a zero-size array has no minimum. *)
Definition np_min (a : list float) : result float :=
  match a with
  | [] => Raise ValueError
  | x :: xs => Ok (fold_left np_minimum xs x)
  end.

Definition np_max (a : list float) : result float :=
  match a with
  | [] => Raise ValueError
  | x :: xs => Ok (fold_left np_maximum xs x)
  end.

(** The reductions this module leaves to its libraries.  What they return
    bit for bit is not fixed by this code: it depends on the summation order
    of the installed numpy (pairwise along a contiguous axis, row by row
    otherwise) and on whether xarray hands the reduction to bottleneck.  The
    model takes them as they come. *)
Class Numerics : Type := {
  (** [.mean(dim='time')] for one cell: the mean of the values of that cell
      over the time steps of a group, given in time order. *)
  nanmean : list float → float;
  (** [.rolling(time=window, center=center, min_periods=min_periods).mean()]
      for one cell: the value at position [i] of the series. *)
  rolling_value : nat → bool → nat → list float → nat → float;
  (** Whether [min_periods > window] is refused (bottleneck refuses it,
      xarray's own rolling mean does not). *)
  oversized_min_periods_refused : bool
}.

(** Binary operation on two rows of cells.  The series this module computes
    with come out of the regridder, on the dimensions [y] and [x] without
    index labels, so xarray has nothing to align the cells on and requires
    equal sizes. *)
Definition row_binop (f : float → float → float) (v w : list float) : result (list float) :=
  if decide (length v = length w) then Ok (zip_with f v w) else Raise ValueError.

(** ** xarray objects *)

(** A coordinate variable: the dimension it lies on and its values. *)
Record Coord : Type := { co_dim : string; co_values : list float }.

(** The two classes of xarray objects: a [DataArray] has the dimensions of
    its array and no other; a [Dataset] takes on new dimensions. *)
Inductive XrClass : Type :=
| XrDataArray
| XrDataset.

#[global] Instance XrClass_eq_dec : EqDecision XrClass.
Proof. solve_decision. Defined.

(** A gridded series: one row of cell values per time step, each labelled by
    its time stamp, and the named coordinate variables ([lat], [lon], ...).
    The spatial axes are flattened into the cells of a row; [lat] and [lon]
    are the one-dimensional axes of a regular grid.  [da_dims] are the
    dimensions of the data with their sizes. *)
Record DataArray : Type := {
  da_class : XrClass;
  da_dims : list (string * nat);
  da_rows : list (Timestamp * list float);
  da_coords : gmap string Coord
}.

(** [a] with other values: class, dimensions and coordinates stay. *)
Definition with_rows (a : DataArray) (rows : list (Timestamp * list float)) : DataArray :=
  {| da_class := da_class a; da_dims := da_dims a; da_rows := rows;
     da_coords := da_coords a |}.

(** The same with the time axis replaced by a [month] axis. *)
Record Climatology : Type := {
  cl_rows : list (Month * list float);
  cl_coords : gmap string Coord
}.

Definition da_time (a : DataArray) : list Timestamp := (da_rows a).*1.

(** [obj.name]: attribute access to a coordinate. *)
Definition da_getattr (a : DataArray) (name : string) : result Coord :=
  match da_coords a !! name with
  | Some c => Ok c
  | None => Raise AttributeError
  end.

(** [obj\[name\]] *)
Definition da_getitem (a : DataArray) (name : string) : result Coord :=
  match da_coords a !! name with
  | Some c => Ok c
  | None => Raise KeyError
  end.

(** What xarray checks when a coordinate of [n] values is put on the
    dimension [dim] under the name [name]: a [DataArray] takes no dimension
    its array does not have, and the size of [dim] must be [n] wherever the
    object has it already, in the data and in the other coordinates. *)
Definition dim_fits (a : DataArray) (name dim : string) (n : nat) : Prop :=
  (da_class a = XrDataArray → dim ∈ (da_dims a).*1) ∧
  Forall (fun d : string * nat => d.1 = dim → d.2 = n) (da_dims a) ∧
  map_Forall (fun k c => k ≠ name → co_dim c = dim → length (co_values c) = n) (da_coords a).

#[global] Instance dim_fits_dec a name dim n : Decision (dim_fits a name dim n).
Proof. unfold dim_fits. apply _. Defined.

(** [obj.coords\[name\] = (dim, values)]: the coordinate replaces a
    coordinate of the same name; [ValueError] when the dimension does not
    fit. *)
Definition da_set_coord (a : DataArray) (name dim : string) (values : list float)
    : result DataArray :=
  if decide (dim_fits a name dim (length values))
  then Ok {| da_class := da_class a; da_dims := da_dims a; da_rows := da_rows a;
             da_coords := <[name := {| co_dim := dim; co_values := values |}]> (da_coords a) |}
  else Raise ValueError.

(** ** [get_bounds] *)

Record Bounds : Type := { b_lat : float * float; b_lon : float * float }.

Definition get_bounds (obj : DataArray) (lat_var lon_var : string) : result Bounds :=
  lat ← da_getitem obj lat_var;
  lat_min ← np_min (co_values lat);
  lat' ← da_getitem obj lat_var;
  lat_max ← np_max (co_values lat');
  lon ← da_getitem obj lon_var;
  lon_min ← np_min (co_values lon);
  lon' ← da_getitem obj lon_var;
  lon_max ← np_max (co_values lon');
  Ok {| b_lat := (lat_min, lat_max); b_lon := (lon_min, lon_max) |}.

(** ** The store *)

(** References into the store. *)
Abbreviation loc := nat (only parsing).

(** A grid as built by [xe.util.grid_2d]: cell centres and cell boundaries. *)
Record Grid : Type := {
  grid_lon : list (list float);
  grid_lat : list (list float);
  grid_lon_b : list (list float);
  grid_lat_b : list (list float)
}.

(** Values that reach [_regrid_to] after the destination: strings and
    references to arrays. *)
Inductive PyVal : Type :=
| VStr (s : string)
| VArr (l : loc).

(** The destination of a regridding: a grid or an array. *)
Inductive Dest : Type :=
| DestGrid (g : Grid)
| DestArr (l : loc).

(** One construction of a regridding operator. *)
Record Built : Type := { bu_source : PyVal; bu_dest : Dest; bu_method : PyVal }.

Record State : Type := {
  st_heap : list DataArray;
  st_built : list Built
}.

(** Computations that read and write the store and may raise; the store an
    exception leaves behind is kept. *)
Definition M (A : Type) : Type := State → result A * State.

#[global] Instance M_ret : MRet M := fun A a s => (Ok a, s).
#[global] Instance M_bind : MBind M := fun A B f m s =>
  match m s with
  | (Ok a, s') => f a s'
  | (Raise e, s') => (Raise e, s')
  end.

Definition raise {A} (e : exn) : M A := fun s => (Raise e, s).

Definition lift {A} (r : result A) : M A := fun s => (r, s).

Definition load (l : loc) : M DataArray := fun s =>
  match st_heap s !! l with
  | Some a => (Ok a, s)
  | None => (Raise (LibraryError "ReferenceError"), s)
  end.

Definition store (l : loc) (a : DataArray) : M unit := fun s =>
  (Ok tt, {| st_heap := <[l := a]> (st_heap s); st_built := st_built s |}).

Definition alloc (a : DataArray) : M loc := fun s =>
  (Ok (length (st_heap s)), {| st_heap := st_heap s ++ [a]; st_built := st_built s |}).

Definition log_built (b : Built) : M unit := fun s =>
  (Ok tt, {| st_heap := st_heap s; st_built := st_built s ++ [b] |}).

(** ** [_make_source_grid] *)

(** [np.diff(values\[:2\])\[0\]] *)
Definition axis_step (centers : list float) : result float :=
  np_getitem0 (np_diff (take 2 centers)).

(** [np.append(values - 0.5*step, values\[-1\] + 0.5*step)] *)
Definition axis_bounds (centers : list float) (step : float) : result (list float) :=
  let left := np_sub_scalar centers (0.5 * step)%float in
  final ← np_getitem_last centers;
  Ok (np_append left (final + 0.5 * step)%float).

Definition _make_source_grid (obj : PyVal) : M PyVal :=
  match obj with
  | VStr _ => raise AttributeError
  | VArr l =>
      a ← load l;
      lon_step ← lift (lon ← da_getattr a "lon"; axis_step (co_values lon));
      lat_step ← lift (lat ← da_getattr a "lat"; axis_step (co_values lat));
      lon_b ← lift (lon ← da_getattr a "lon"; axis_bounds (co_values lon) lon_step);
      with_lon_b ← lift (da_set_coord a "lon_b" "x_b" lon_b);
      _ ← store l with_lon_b;
      a' ← load l;
      lat_b ← lift (lat ← da_getattr a' "lat"; axis_bounds (co_values lat) lat_step);
      with_lat_b ← lift (da_set_coord a' "lat_b" "y_b" lat_b);
      _ ← store l with_lat_b;
      mret obj
  end.

(** ** Grouping by [time.month] *)

Section Grouping.

Context {lib : Numerics}.

Definition in_month (m : Month) (row : Timestamp * list float) : bool :=
  bool_decide (ts_month row.1 = m).

(** The rows of one calendar month, in time order. *)
Definition group_rows (m : Month) (rows : list (Timestamp * list float)) : list (list float) :=
  (List.filter (in_month m) rows).*2.

(** The group keys: the months that occur, in increasing order. *)
Definition months_present (rows : list (Timestamp * list float)) : list Month :=
  List.filter (fun m => existsb (in_month m) rows) all_months.

(** Number of cells of the first row. *)
Definition width (rows : list (list float)) : nat :=
  match rows with
  | [] => 0
  | r :: _ => length r
  end.

(** The values of cell [c] down the rows. *)
Definition column (c : nat) (rows : list (list float)) : list float :=
  (fun r => nth c r PrimFloat.nan) <$> rows.

(** [.mean(dim='time')] of one group: the mean of every cell over the rows. *)
Definition mean_over_time (rows : list (list float)) : list float :=
  (fun c => nanmean (column c rows)) <$> seq 0 (width rows).

(** [obj.groupby('time.month').mean(dim='time')]; grouping an empty series
    raises. *)
Definition groupby_month_mean (a : DataArray) : result Climatology :=
  match da_rows a with
  | [] => Raise ValueError
  | _ =>
      Ok {| cl_rows := (fun m => (m, mean_over_time (group_rows m (da_rows a))))
                         <$> months_present (da_rows a);
            cl_coords := da_coords a |}
  end.

(** [other.sel(month=m)]; where the month is missing, the groupby arithmetic
    works with a copy of [other] filled with NaN. *)
Definition clim_sel (clim : Climatology) (m : Month) : list float :=
  match List.find (fun r => bool_decide (r.1 = m)) (cl_rows clim) with
  | Some r => r.2
  | None => replicate (width (cl_rows clim).*2) PrimFloat.nan
  end.

Fixpoint map_result {A B} (f : A → result B) (l : list A) : result (list B) :=
  match l with
  | [] => Ok []
  | x :: rest =>
      y ← f x;
      ys ← map_result f rest;
      Ok (y :: ys)
  end.

(** [obj.groupby('time.month') / clim]: every time step is divided by the
    climatology of its month; the result keeps the time order of [obj]. *)
Definition groupby_month_div (a : DataArray) (clim : Climatology) : result DataArray :=
  match da_rows a with
  | [] => Raise ValueError
  | _ =>
      rows ← map_result (fun row : Timestamp * list float =>
                           v ← row_binop PrimFloat.div row.2 (clim_sel clim (ts_month row.1));
                           Ok (row.1, v))
                        (da_rows a);
      Ok (with_rows a rows)
  end.

(** ** Rolling means *)

(** [obj.rolling(time=window, center=center, min_periods=min_periods).mean()]
    on the rows of one group: [rolling] refuses a window or a [min_periods]
    that is not positive; the result has the shape of [rows]. *)
Definition _running_mean (window : nat) (center : bool) (min_periods : nat)
    (rows : list (list float)) : result (list (list float)) :=
  if (window =? 0) || (min_periods =? 0)
     || ((window <? min_periods) && oversized_min_periods_refused)
  then Raise ValueError
  else Ok (imap (fun j row =>
                   (fun c => rolling_value window center min_periods (column c rows) j)
                     <$> seq 0 (length row))
                rows).

(** The result of the group with key [m]. *)
Definition group_result (m : Month) (groups : list (Month * list (list float)))
    : list (list float) :=
  match List.find (fun g => bool_decide (g.1 = m)) groups with
  | Some g => g.2
  | None => []
  end.

(** [obj.groupby('time.month').apply(f)]: [f] runs on the rows of every
    month, in the order of the months, and the results go back to the
    positions their time steps came from. *)
Definition groupby_month_apply (f : list (list float) → result (list (list float)))
    (a : DataArray) : result DataArray :=
  match da_rows a with
  | [] => Raise ValueError
  | _ =>
      groups ← map_result (fun m => g ← f (group_rows m (da_rows a)); Ok (m, g))
                          (months_present (da_rows a));
      Ok (with_rows a
            (imap (fun i row =>
                     let m := ts_month row.1 in
                     let j := length (group_rows m (take i (da_rows a))) in
                     (row.1, nth j (group_result m groups) []))
                  (da_rows a)))
  end.

End Grouping.

(** ** Arithmetic between two series *)

Definition find_row (t : Timestamp) (rows : list (Timestamp * list float)) : option (list float) :=
  snd <$> List.find (fun r => bool_decide (r.1 = t)) rows.

(** xarray aligns the operands on their time labels before it computes:
    with equal time axes the rows pair up in place, otherwise the labels both
    operands carry are kept. *)
Definition align_rows (a b : list (Timestamp * list float))
    : list (Timestamp * (list float * list float)) :=
  if decide (a.*1 = b.*1) then zip a.*1 (zip a.*2 b.*2)
  else omap (fun row : Timestamp * list float =>
               w ← find_row row.1 b; Some (row.1, (row.2, w))) a.

Definition da_binop (f : float → float → float) (a b : DataArray) : result DataArray :=
  rows ← map_result (fun r : Timestamp * (list float * list float) =>
                       v ← row_binop f r.2.1 r.2.2; Ok (r.1, v))
                    (align_rows (da_rows a) (da_rows b));
  Ok (with_rows a rows).

Definition da_add : DataArray → DataArray → result DataArray := da_binop PrimFloat.add.
Definition da_sub : DataArray → DataArray → result DataArray := da_binop PrimFloat.sub.

(** ** Calling [_regrid_to] *)

(** Binding of the arguments that follow [dest] in a call to
    [def _regrid_to(dest, method='bilinear', *objs)]: positional arguments
    fill [method] and then [objs]; a keyword must name a parameter that is
    still free. *)
Definition bind_regrid_to (args : list PyVal) (kwargs : list (string * PyVal))
    : result (PyVal * list PyVal) :=
  if existsb (fun kw : string * PyVal => negb (bool_decide (kw.1 = "method"))) kwargs
  then Raise TypeError
  else match args, kwargs with
       | [], [] => Ok (VStr "bilinear", [])
       | method :: objs, [] => Ok (method, objs)
       | [], (_, method) :: _ => Ok (method, [])
       | _ :: _, _ :: _ => Raise TypeError
       end.

(** [a, b, c = out] and [a, = out] *)
Definition unpack3 {A} (out : list A) : result (A * A * A) :=
  match out with
  | [a; b; c] => Ok (a, b, c)
  | _ => Raise ValueError
  end.

Definition unpack1 {A} (out : list A) : result A :=
  match out with
  | [a] => Ok a
  | _ => Raise ValueError
  end.

(** ** The pipeline, over its collaborators *)

Section Pipeline.

Context {lib : Numerics}.

(** xESMF: [xe.Regridder(obj, dest, method)] builds an operator from the
    objects it is given (read in the current store); calling the operator on
    an object yields a new array.  Neither writes to its arguments. *)
Variable Regridder : Type.
Variable xe_Regridder : list DataArray → PyVal → Dest → PyVal → result Regridder.
Variable regridder_call : Regridder → list DataArray → PyVal → result DataArray.

(** [xe.util.grid_2d(lon0_b, lon1_b, d_lon, lat0_b, lat1_b, d_lat)] *)
Variable grid_2d : float → float → float → float → float → float → result Grid.

(** [quantile_mapping_by_group(predict, train, obs, grouper=...)], imported
    from the sibling module [quantile_mapping]. *)
Variable quantile_mapping_by_group :
  DataArray → DataArray → DataArray → string → result DataArray.

(** One turn of the loop of [_regrid_to]. *)
Definition regrid_step (dest : Dest) (method : PyVal) (obj : PyVal) : M loc :=
  obj' ← _make_source_grid obj;
  regridder ← (fun s => (xe_Regridder (st_heap s) obj' dest method, s));
  _ ← log_built {| bu_source := obj'; bu_dest := dest; bu_method := method |};
  regridded ← (fun s => (regridder_call regridder (st_heap s) obj', s));
  alloc regridded.

Fixpoint regrid_loop (dest : Dest) (method : PyVal) (objs : list PyVal)
    (out : list loc) : M (list loc) :=
  match objs with
  | [] => mret out
  | obj :: rest =>
      l ← regrid_step dest method obj;
      regrid_loop dest method rest (out ++ [l])
  end.

Definition _regrid_to (dest : Dest) (method : PyVal) (objs : list PyVal) : M (list loc) :=
  regrid_loop dest method objs [].

(** A call [_regrid_to(dest, *args, **kwargs)]. *)
Definition call_regrid_to (dest : Dest) (args : list PyVal)
    (kwargs : list (string * PyVal)) : M (list loc) :=
  bound ← lift (bind_regrid_to args kwargs);
  _regrid_to dest bound.1 bound.2.

(** The precipitation branch (lines 119-128). *)
Definition precipitation_anoms (da_obs_regrid da_train_regrid da_predict_regrid : DataArray)
    (da_train_regrid_mean : Climatology) : result DataArray :=
  da_predict_regrid_qm ←
    quantile_mapping_by_group da_predict_regrid da_train_regrid da_obs_regrid "time.month";
  groupby_month_div da_predict_regrid_qm da_train_regrid_mean.

(** The branch of every other variable (lines 130-152). *)
Definition temperature_anoms (da_obs_regrid da_train_regrid da_predict_regrid : DataArray)
    : result DataArray :=
  da_predict_regrid_rolling_mean ←
    groupby_month_apply (_running_mean 9 true 1) da_predict_regrid;
  da_predict_anoms ← da_sub da_predict_regrid da_predict_regrid_rolling_mean;
  da_predict_regrid_qm ←
    quantile_mapping_by_group da_predict_regrid da_train_regrid da_obs_regrid "time.month";
  da_predict_regrid_qm_mean ← da_add da_predict_regrid_rolling_mean da_predict_regrid_qm;
  da_sub da_predict_regrid_qm da_predict_regrid_qm_mean.

(** Lines 114-152 of [bcsd]: from the three series on the analysis grid to
    the anomalies on the analysis grid. *)
Definition analysis_anoms (var : string)
    (da_obs_regrid da_train_regrid da_predict_regrid : DataArray) : result DataArray :=
  da_train_regrid_mean ← groupby_month_mean da_train_regrid;
  if bool_decide (var = "pr")
  then precipitation_anoms da_obs_regrid da_train_regrid da_predict_regrid da_train_regrid_mean
  else temperature_anoms da_obs_regrid da_train_regrid da_predict_regrid.

Definition bcsd (da_obs da_train da_predict : loc) (var : string) : M loc :=
  obs ← load da_obs;
  bounds ← lift (get_bounds obs "lat" "lon");
  course_grid ← lift (grid_2d (b_lon bounds).1 (b_lon bounds).2 1%float
                              (b_lat bounds).1 (b_lat bounds).2 1%float);
  out ← call_regrid_to (DestGrid course_grid)
                       [VArr da_obs; VArr da_train; VArr da_predict] [];
  regridded ← lift (unpack3 out);
  da_obs_regrid ← load regridded.1.1;
  da_train_regrid ← load regridded.1.2;
  da_predict_regrid ← load regridded.2;
  anoms ← lift (analysis_anoms var da_obs_regrid da_train_regrid da_predict_regrid);
  da_predict_regrid_anoms ← alloc anoms;
  out' ← call_regrid_to (DestArr da_obs) [VArr da_predict_regrid_anoms]
                        [("method", VStr "bilinear")];
  out_regrid ← lift (unpack1 out');
  mret out_regrid.

(** The batched regrid of the specification (section 4.2), in its words:
    every source goes through the harmonizer and then through an operator
    built for it; the outputs come in the order of the sources. *)
Fixpoint regrid_batch (destination : Dest) (method : PyVal) (sources : list PyVal)
    : M (list loc) :=
  match sources with
  | [] => mret []
  | source :: rest =>
      output ← regrid_step destination method source;
      outputs ← regrid_batch destination method rest;
      mret (output :: outputs)
  end.

End Pipeline.

(** ** Stand-ins for the collaborators, for running the pipeline on examples *)

Module Demo.

(** An operator that remembers nothing and returns its source unchanged. *)
Definition xe_Regridder (h : list DataArray) (obj : PyVal) (dest : Dest) (method : PyVal)
    : result unit := Ok tt.

Definition regridder_call (r : unit) (h : list DataArray) (obj : PyVal) : result DataArray :=
  match obj with
  | VArr l => match h !! l with
              | Some a => Ok a
              | None => Raise (LibraryError "ReferenceError")
              end
  | VStr _ => Raise TypeError
  end.

(** A grid of one cell spanning the bounds. *)
Definition grid_2d (lon0 lon1 d_lon lat0 lat1 d_lat : float) : result Grid :=
  Ok {| grid_lon := [[((lon0 + lon1) / 2)%float]];
        grid_lat := [[((lat0 + lat1) / 2)%float]];
        grid_lon_b := [[lon0; lon1]; [lon0; lon1]];
        grid_lat_b := [[lat0; lat0]; [lat1; lat1]] |}.

(** A mapping that sends every predicted value to the observed value of
    the same time step. *)
Definition quantile_mapping_by_group (predict train obs : DataArray) (grouper : string)
    : result DataArray :=
  Ok (with_rows predict (zip (da_time predict) (da_rows obs).*2)).

(** Reductions that add from left to right, for running examples. *)
Definition float_of_nat (n : nat) : float :=
  PrimFloat.of_uint63 (Uint63.of_Z (Z.of_nat n)).

Definition present (a : list float) : list float :=
  List.filter (fun x => negb (PrimFloat.is_nan x)) a.

Definition mean (a : list float) : float :=
  (fold_left PrimFloat.add (present a) 0 / float_of_nat (length (present a)))%float.

Definition window_mean (window : nat) (center : bool) (min_periods : nat)
    (a : list float) (i : nat) : float :=
  let off := if center then (window - 1) / 2 else 0 in
  let lo := i + off - (window - 1) in
  let seen := take (S (i + off) - lo) (drop lo a) in
  if (min_periods <=? length (present seen))%nat then mean seen else PrimFloat.nan.

Definition numerics : Numerics :=
  {| nanmean := mean; rolling_value := window_mean; oversized_min_periods_refused := false |}.

Definition jan (y : Z) : Timestamp := {| ts_year := y; ts_month := Jan; ts_day := 1 |}.
Definition feb (y : Z) : Timestamp := {| ts_year := y; ts_month := Feb; ts_day := 1 |}.

Definition lat_lon (lat lon : list float) : gmap string Coord :=
  <["lat" := {| co_dim := "y"; co_values := lat |}]>
    (<["lon" := {| co_dim := "x"; co_values := lon |}]> ∅).

(** A 2 x 2 grid, two time steps, held in a [Dataset]. *)
Definition series (v : float) : DataArray :=
  {| da_class := XrDataset;
     da_dims := [("time", 2); ("y", 2); ("x", 2)];
     da_rows := [(jan 2000, [v; v; v; v]); (feb 2000, [v; v; v; v])];
     da_coords := lat_lon [10; 11]%float [20; 21]%float |}.

(** The same as a [DataArray]. *)
Definition array (v : float) : DataArray :=
  {| da_class := XrDataArray;
     da_dims := [("time", 2); ("y", 2); ("x", 2)];
     da_rows := [(jan 2000, [v; v; v; v]); (feb 2000, [v; v; v; v])];
     da_coords := lat_lon [10; 11]%float [20; 21]%float |}.

(** One cell, one time step. *)
Definition point (v : float) : DataArray :=
  {| da_class := XrDataset;
     da_dims := [("time", 1); ("y", 1); ("x", 1)];
     da_rows := [(jan 2000, [v])]; da_coords := lat_lon [10]%float [20]%float |}.

(** A series of one point without coordinates. *)
Definition bare (v : float) : DataArray :=
  {| da_class := XrDataArray;
     da_dims := [("time", 1); ("point", 1)];
     da_rows := [(jan 2000, [v])]; da_coords := ∅ |}.

(** The 2 x 2 grid in a [Dataset] that has a dimension [y_b] of another
    size already. *)
Definition clash (v : float) : DataArray :=
  {| da_class := XrDataset;
     da_dims := [("time", 2); ("y", 2); ("x", 2); ("y_b", 7)];
     da_rows := [(jan 2000, [v; v; v; v]); (feb 2000, [v; v; v; v])];
     da_coords := lat_lon [10; 11]%float [20; 21]%float |}.

(** A grid of one latitude and two longitudes, one time step. *)
Definition row (v : float) : DataArray :=
  {| da_class := XrDataset;
     da_dims := [("time", 1); ("y", 1); ("x", 2)];
     da_rows := [(jan 2000, [v; v])]; da_coords := lat_lon [10]%float [20; 21]%float |}.

Definition state0 : State :=
  {| st_heap := [series 1; series 2; series 3]%float; st_built := [] |}.



(** The pipeline over the stand-ins. *)
Definition run : loc → loc → loc → string → M loc :=
  bcsd (lib := numerics) unit xe_Regridder regridder_call grid_2d quantile_mapping_by_group.

Definition anoms : string → DataArray → DataArray → DataArray → result DataArray :=
  analysis_anoms (lib := numerics) quantile_mapping_by_group.

End Demo.

(** ** Specification predicates *)

(** The step of an axis, read off its first two cell centres. *)
Definition first_step (centers : list float) : float :=
  (nth 1 centers PrimFloat.nan - nth 0 centers PrimFloat.nan)%float.

(** [bounds] are the cell boundaries of [centers]: one more than centres,
    each centre moved left by half a step, and the last centre moved right by
    half a step at the end. *)
Definition cell_boundaries (centers bounds : list float) : Prop :=
  length bounds = S (length centers) ∧
  (∀ i c, centers !! i = Some c →
          bounds !! i = Some (c - 0.5 * first_step centers)%float) ∧
  (∀ c, last centers = Some c →
        bounds !! length centers = Some (c + 0.5 * first_step centers)%float).

(** What a coordinate axis lacks for the harmonizer, if anything, as the
    exception the interpreter raises on it. *)
Definition axis_defect (a : DataArray) (name : string) : option exn :=
  match da_coords a !! name with
  | None => Some AttributeError
  | Some c => if decide (length (co_values c) < 2) then Some IndexError else None
  end.

Definition metadata_defect (a : DataArray) : option exn :=
  match axis_defect a "lon" with
  | Some e => Some e
  | None => axis_defect a "lat"
  end.

(** The object with both boundary coordinates attached. *)
Definition with_coord (a : DataArray) (name dim : string) (values : list float) : DataArray :=
  {| da_class := da_class a; da_dims := da_dims a; da_rows := da_rows a;
     da_coords := <[name := {| co_dim := dim; co_values := values |}]> (da_coords a) |}.

Definition with_bounds (a : DataArray) (lon_b lat_b : list float) : DataArray :=
  with_coord (with_coord a "lon_b" "x_b" lon_b) "lat_b" "y_b" lat_b.

Definition set_heap (s : State) (h : list DataArray) : State :=
  {| st_heap := h; st_built := st_built s |}.

(** What a run may change of an object: nothing but its boundary
    coordinates. *)
Definition unchanged_but_bounds (a a' : DataArray) : Prop :=
  da_class a' = da_class a ∧ da_dims a' = da_dims a ∧ da_rows a' = da_rows a ∧
  ∀ k, k ≠ "lon_b" → k ≠ "lat_b" → da_coords a' !! k = da_coords a !! k.

Definition store_preserved (s s' : State) : Prop :=
  ∀ l a, st_heap s !! l = Some a →
         ∃ a', st_heap s' !! l = Some a' ∧ unchanged_but_bounds a a'.


(** The ratio against the climatology, row by row. *)
Definition ratio_rows (q : DataArray) (clim : Climatology) : list (Timestamp * list float) :=
  (fun r : Timestamp * list float =>
     (r.1, zip_with PrimFloat.div r.2 (clim_sel clim (ts_month r.1)))) <$> da_rows q.

Definition widths_match (q : DataArray) (clim : Climatology) : Prop :=
  Forall (fun r : Timestamp * list float =>
            length r.2 = length (clim_sel clim (ts_month r.1))) (da_rows q).

(** [b] has the time axis of [a] and as many cells at every step. *)
Definition same_shape (a b : DataArray) : Prop :=
  Forall2 (fun ra rb : Timestamp * list float => ra.1 = rb.1 ∧ length ra.2 = length rb.2)
          (da_rows a) (da_rows b).

Definition zip_rows (f : float → float → float) (a b : list (Timestamp * list float))
    : list (Timestamp * list float) :=
  zip_with (fun ra rb : Timestamp * list float => (ra.1, zip_with f ra.2 rb.2)) a b.

(** The values of cell [c] at the time steps that fall in calendar month
    [m], in time order. *)
Definition values_in_month (m : Month) (c : nat) (rows : list (Timestamp * list float))
    : list float :=
  omap (fun r : Timestamp * list float =>
          if decide (ts_month r.1 = m) then r.2 !! c else None) rows.

Section RollingMeans.

Context {lib : Numerics}.

(** The rolling mean at time step [i] of [rows], whose label is [t] and
    whose row is [v]: cell by cell the library's rolling value over the
    steps of the same calendar month, at the position of step [i] among
    them. *)
Definition rolling_mean_row (window : nat) (center : bool) (min_periods : nat)
    (rows : list (Timestamp * list float)) (i : nat) (t : Timestamp) (v : list float)
    : list float :=
  let g := group_rows (ts_month t) rows in
  let j := length (group_rows (ts_month t) (take i rows)) in
  (fun c => rolling_value window center min_periods (column c g) j) <$> seq 0 (length v).

Definition rolling_mean_rows (window : nat) (center : bool) (min_periods : nat)
    (rows : list (Timestamp * list float)) : list (Timestamp * list float) :=
  imap (fun i row => (row.1, rolling_mean_row window center min_periods rows i row.1 row.2))
       rows.

End RollingMeans.

(** What the branch computes at one cell from the quantile-mapped value [x]
    and the rolling mean [r]. *)
Definition qm_minus_shifted (x r : float) : float := (x - (r + x))%float.


(** ** Notions for the further properties *)

(** A position on the number line for every number that is not NaN: the
    class, then exponent and mantissa with the sign applied. *)
Definition sf_key (x : spec_float) : Z * Z * Z :=
  match x with
  | S754_nan => (0, 0, 0)%Z
  | S754_zero _ => (0, 0, 0)%Z
  | S754_infinity true => (-2, 0, 0)%Z
  | S754_infinity false => (2, 0, 0)%Z
  | S754_finite true m e => (-1, - e, - Z.pos m)%Z
  | S754_finite false m e => (1, e, Z.pos m)%Z
  end.

Definition key_le (k k' : Z * Z * Z) : Prop :=
  (k.1.1 < k'.1.1 ∨
   (k.1.1 = k'.1.1 ∧ (k.1.2 < k'.1.2 ∨ (k.1.2 = k'.1.2 ∧ k.2 ≤ k'.2))))%Z.

(** No value of the array is NaN. *)
Definition no_nan (a : list float) : Prop :=
  Forall (fun x => PrimFloat.is_nan x = false) a.

(** [lo] and [hi] are values of [a] that enclose every value of [a]. *)
Definition encloses (lo hi : float) (a : list float) : Prop :=
  lo ∈ a ∧ hi ∈ a ∧
  ∀ v, v ∈ a → (lo <=? v)%float = true ∧ (v <=? hi)%float = true.

(** The boundaries the harmonizer derives from the centres of an axis. *)
Definition axis_boundaries (centers : list float) : list float :=
  match last centers with
  | Some c =>
      ((fun x => (x - 0.5 * first_step centers)%float) <$> centers)
        ++ [(c + 0.5 * first_step centers)%float]
  | None => []
  end.

(** The object carries the boundaries of its own two axes. *)
Definition harmonized (a : DataArray) : Prop :=
  ∃ lon lat,
    da_coords a !! "lon" = Some lon ∧ da_coords a !! "lat" = Some lat ∧
    da_coords a !! "lon_b"
    = Some {| co_dim := "x_b"; co_values := axis_boundaries (co_values lon) |} ∧
    da_coords a !! "lat_b"
    = Some {| co_dim := "y_b"; co_values := axis_boundaries (co_values lat) |}.

(** The object at [l] exists and carries the boundaries of its axes. *)
Definition harmonized_at (l : loc) (s : State) : Prop :=
  ∃ a, st_heap s !! l = Some a ∧ harmonized a.

(** Two series with one time axis that agree at the time steps of month [m]. *)
Definition agree_in_month (m : Month) (rows rows' : list (Timestamp * list float)) : Prop :=
  Forall2 (fun r r' : Timestamp * list float => r.1 = r'.1 ∧ (ts_month r.1 = m → r = r'))
          rows rows'.

(** ** The test fixtures of [skdownscale/test/__init__.py] *)

(** The Gregorian calendar, as far as daily time stamps need it. *)
Definition leap_year (y : Z) : bool :=
  ((y mod 4 =? 0)%Z && negb (y mod 100 =? 0)%Z) || (y mod 400 =? 0)%Z.

Definition days_in_month (y : Z) (m : Month) : Z :=
  match m with
  | Feb => if leap_year y then 29 else 28
  | Apr | Jun | Sep | Nov => 30
  | _ => 31
  end.

Definition next_month (m : Month) : Month :=
  match m with
  | Jan => Feb | Feb => Mar | Mar => Apr | Apr => May | May => Jun | Jun => Jul
  | Jul => Aug | Aug => Sep | Sep => Oct | Oct => Nov | Nov => Dec | Dec => Jan
  end.

Definition next_day (t : Timestamp) : Timestamp :=
  if (ts_day t <? days_in_month (ts_year t) (ts_month t))%Z
  then {| ts_year := ts_year t; ts_month := ts_month t; ts_day := ts_day t + 1 |}
  else {| ts_year := if decide (ts_month t = Dec) then ts_year t + 1 else ts_year t;
          ts_month := next_month (ts_month t);
          ts_day := 1 |}.

(** [n] consecutive days from [t] on. *)
Fixpoint days_from (t : Timestamp) (n : nat) : list Timestamp :=
  match n with
  | 0 => []
  | S n => t :: days_from (next_day t) n
  end.

(** [string.ascii_lowercase] *)
Definition ascii_lowercase : list string :=
  ["a"; "b"; "c"; "d"; "e"; "f"; "g"; "h"; "i"; "j"; "k"; "l"; "m";
   "n"; "o"; "p"; "q"; "r"; "s"; "t"; "u"; "v"; "w"; "x"; "y"; "z"].

(** [l\[:n\]]: a negative [n] counts from the end. *)
Definition slice_until {A} (l : list A) (n : Z) : list A :=
  if (0 <=? n)%Z then take (Z.to_nat n) l
  else take (length l - Z.to_nat (- n)) l.

(** [xr.DataArray(values, dims=dims, coords={"time": times})] *)
Definition xr_DataArray (dims : list (string * nat)) (times : list Timestamp)
    (values : list (list float)) : DataArray :=
  {| da_class := XrDataArray; da_dims := dims; da_rows := zip times values; da_coords := ∅ |}.

Section Fixtures.

(** The pseudo-random generator: the value at row [i] and cell [j] of the
    array drawn for the variable with index [k]. *)
Variable draw : nat → nat → nat → float.

(** What [pd.date_range] does with a number of periods that is negative or
    runs past 2262-04-11, the last day a time stamp of nanoseconds holds:
    the exception, or the range, differs between versions of pandas. *)
Variable date_range_beyond : Z → result (list Timestamp).

(** [pd.date_range("1979-01-01", freq="1D", periods=periods)] *)
Definition date_range (periods : Z) : result (list Timestamp) :=
  if (0 <=? periods)%Z && (periods <=? 103465)%Z
  then Ok (days_from {| ts_year := 1979; ts_month := Jan; ts_day := 1 |} (Z.to_nat periods))
  else date_range_beyond periods.

(** [np.random.random(size=(rows,) + shape)], the cells of a row laid out
    one after the other; a negative dimension is refused. *)
Definition np_random_random (k : nat) (rows : Z) (shape : list Z) : result (list (list float)) :=
  if existsb (fun d => (d <? 0)%Z) (rows :: shape) then Raise ValueError
  else Ok ((fun i => draw k i <$> seq 0 (Z.to_nat (fold_right Z.mul 1%Z shape)))
             <$> seq 0 (Z.to_nat rows)).

(** A [Dataset]: its variables by name, in the order they were added. *)
Definition random_point_data (n_points n_times n_vars : Z) : result (list (string * DataArray)) :=
  times ← date_range n_times;
  map_result (fun kv : nat * string =>
                values ← np_random_random kv.1 n_times [n_points];
                Ok (kv.2, xr_DataArray [("time", Z.to_nat n_times);
                                        ("point", Z.to_nat n_points)] times values))
             (imap pair (slice_until ascii_lowercase n_vars)).

Definition random_grid_data (grid_shape : Z * Z) (n_times n_vars : Z)
    : result (list (string * DataArray)) :=
  times ← date_range n_times;
  map_result (fun kv : nat * string =>
                values ← np_random_random kv.1 n_times [grid_shape.1; grid_shape.2];
                Ok (kv.2, xr_DataArray [("time", Z.to_nat n_times);
                                        ("y", Z.to_nat grid_shape.1);
                                        ("x", Z.to_nat grid_shape.2)] times values))
             (imap pair (slice_until ascii_lowercase n_vars)).

End Fixtures.

Definition new_year_1979 : Timestamp := {| ts_year := 1979; ts_month := Jan; ts_day := 1 |}.

(** One variable of a fixture: [n] daily steps from 1979-01-01, [cells]
    values at every step, and no coordinate but the time. *)
Definition fixture_variable (n cells : nat) (a : DataArray) : Prop :=
  da_time a = days_from new_year_1979 n ∧
  Forall (fun r : Timestamp * list float => length r.2 = cells) (da_rows a) ∧
  da_coords a = ∅.

(** The variable with index [k] of a fixture. *)
Definition fixture_array (draw : nat → nat → nat → float) (k : nat)
    (dims : list (string * nat)) (n cells : nat) : DataArray :=
  xr_DataArray dims (days_from new_year_1979 n) ((fun i => draw k i <$> seq 0 cells) <$> seq 0 n).

(** * Lemmas *)

(** ** The monad *)

Lemma bind_ok {A B} (m : M A) (f : A → M B) s a s' :
  m s = (Ok a, s') → (m ≫= f) s = f a s'.
Proof. intros H. unfold mbind, M_bind. by rewrite H. Qed.

Lemma bind_raise {A B} (m : M A) (f : A → M B) s e s' :
  m s = (Raise e, s') → (m ≫= f) s = (Raise e, s').
Proof. intros H. unfold mbind, M_bind. by rewrite H. Qed.

Lemma bind_inv {A B} (m : M A) (f : A → M B) s b s' :
  (m ≫= f) s = (Ok b, s') → ∃ a s1, m s = (Ok a, s1) ∧ f a s1 = (Ok b, s').
Proof.
  unfold mbind, M_bind. destruct (m s) as [[a|e] s1]; [eauto | discriminate].
Qed.

Lemma load_ok s l a : st_heap s !! l = Some a → load l s = (Ok a, s).
Proof. intros H. unfold load. by rewrite H. Qed.

(** ** The harmonizer *)

Lemma axis_step_cons c0 c1 rest : axis_step (c0 :: c1 :: rest) = Ok (c1 - c0)%float.
Proof. reflexivity. Qed.

Lemma axis_step_short (centers : list float) :
  length centers < 2 → axis_step centers = Raise IndexError.
Proof. destruct centers as [|c0 [|c1 rest]]; simpl; [done | done | lia]. Qed.

Lemma axis_step_long (centers : list float) :
  2 ≤ length centers → axis_step centers = Ok (first_step centers).
Proof. destruct centers as [|c0 [|c1 rest]]; simpl; [lia | lia | done]. Qed.

Lemma axis_bounds_ok (centers : list float) step c :
  last centers = Some c →
  axis_bounds centers step
  = Ok (((fun x => (x - 0.5 * step)%float) <$> centers) ++ [(c + 0.5 * step)%float]).
Proof. intros H. unfold axis_bounds, np_getitem_last. by rewrite H. Qed.

Lemma axis_bounds_boundaries (centers : list float) c :
  last centers = Some c →
  cell_boundaries centers
    (((fun x => (x - 0.5 * first_step centers)%float) <$> centers)
       ++ [(c + 0.5 * first_step centers)%float]).
Proof.
  intros Hlast. split_and!.
  - rewrite length_app, length_fmap. simpl. lia.
  - intros i x Hi. rewrite lookup_app_l.
    + by rewrite list_lookup_fmap, Hi.
    + rewrite length_fmap. by eapply lookup_lt_Some.
  - intros c' Hc'. rewrite Hlast in Hc'. injection Hc' as <-.
    rewrite lookup_app_r; rewrite length_fmap; [|lia].
    by rewrite Nat.sub_diag.
Qed.

Lemma last_is_Some {A} (l : list A) : 0 < length l → is_Some (last l).
Proof.
  intros H. rewrite last_lookup. apply lookup_lt_is_Some. lia.
Qed.

Lemma axis_boundaries_length (centers : list float) :
  centers ≠ [] → length (axis_boundaries centers) = S (length centers).
Proof.
  intros Hne. unfold axis_boundaries.
  destruct (last_is_Some centers) as [c ->]; [destruct centers; [done | simpl; lia]|].
  rewrite length_app, length_fmap. simpl. lia.
Qed.

Lemma axis_bounds_first_step (centers : list float) :
  centers ≠ [] → axis_bounds centers (first_step centers) = Ok (axis_boundaries centers).
Proof.
  intros Hne. unfold axis_boundaries.
  destruct (last_is_Some centers) as [c Hc]; [destruct centers; [done | simpl; lia]|].
  rewrite Hc. by apply axis_bounds_ok.
Qed.

Lemma axis_boundaries_boundaries (centers : list float) :
  centers ≠ [] → cell_boundaries centers (axis_boundaries centers).
Proof.
  intros Hne. unfold axis_boundaries.
  destruct (last_is_Some centers) as [c Hc]; [destruct centers; [done | simpl; lia]|].
  rewrite Hc. by apply axis_bounds_boundaries.
Qed.

Lemma da_set_coord_fits (a : DataArray) (name dim : string) (values : list float) :
  dim_fits a name dim (length values) →
  da_set_coord a name dim values = Ok (with_coord a name dim values).
Proof. intros Hfit. unfold da_set_coord. by rewrite decide_True. Qed.

Lemma da_set_coord_misfit (a : DataArray) (name dim : string) (values : list float) :
  ¬ dim_fits a name dim (length values) →
  da_set_coord a name dim values = Raise ValueError.
Proof. intros Hfit. unfold da_set_coord. by rewrite decide_False. Qed.

(** A coordinate on another dimension does not stand in the way. *)
Lemma dim_fits_with_coord (a : DataArray) (name' dim' : string) (values : list float)
    (name dim : string) (n : nat) :
  dim' ≠ dim →
  dim_fits a name dim n →
  dim_fits (with_coord a name' dim' values) name dim n.
Proof.
  intros Hne (Hclass & Hdims & Hcoords). split_and!; [done | done |].
  cbn [with_coord da_coords]. apply map_Forall_insert_2; [|done].
  intros _ Hd. by destruct Hne.
Qed.

(** A [DataArray] whose array has no dimension [dim] takes no coordinate
    on it. *)
Lemma dim_fits_DataArray (a : DataArray) (name dim : string) (n : nat) :
  da_class a = XrDataArray → dim ∉ (da_dims a).*1 → ¬ dim_fits a name dim n.
Proof. intros Hclass Hdim (Hin & _). by apply Hdim, Hin. Qed.

(** The three ways a run on an object with both axes in order can go: the
    first assignment is refused and nothing is written; the second is
    refused and [lon_b] stays; both go through. *)
Lemma make_source_grid_run (s : State) (l : loc) (a : DataArray) (lon lat : Coord) :
  st_heap s !! l = Some a →
  da_coords a !! "lon" = Some lon →
  da_coords a !! "lat" = Some lat →
  2 ≤ length (co_values lon) →
  2 ≤ length (co_values lat) →
  _make_source_grid (VArr l) s
  = if decide (dim_fits a "lon_b" "x_b" (S (length (co_values lon))))
    then if decide (dim_fits (with_coord a "lon_b" "x_b" (axis_boundaries (co_values lon)))
                             "lat_b" "y_b" (S (length (co_values lat))))
         then (Ok (VArr l),
               set_heap s (<[l := with_bounds a (axis_boundaries (co_values lon))
                                                (axis_boundaries (co_values lat))]> (st_heap s)))
         else (Raise ValueError,
               set_heap s (<[l := with_coord a "lon_b" "x_b" (axis_boundaries (co_values lon))]>
                             (st_heap s)))
    else (Raise ValueError, s).
Proof.
  intros Hl Hlon Hlat Nlon Nlat.
  assert (Hlt : l < length (st_heap s)) by by eapply lookup_lt_Some.
  assert (Elon : co_values lon ≠ []) by (destruct (co_values lon); [simpl in Nlon; lia | done]).
  assert (Elat : co_values lat ≠ []) by (destruct (co_values lat); [simpl in Nlat; lia | done]).
  unfold _make_source_grid, mbind, M_bind, lift, load, store, da_getattr, mret, M_ret.
  rewrite Hl, Hlon, Hlat. unfold mbind, result_bind.
  rewrite (axis_step_long _ Nlon), (axis_step_long _ Nlat), (axis_bounds_first_step _ Elon).
  unfold da_set_coord at 1. rewrite (axis_boundaries_length _ Elon).
  case_decide as Hfit; [|done].
  cbn [st_heap st_built]. rewrite list_lookup_insert_eq by done.
  cbn [da_coords]. rewrite lookup_insert_ne by done. rewrite Hlat.
  rewrite (axis_bounds_first_step _ Elat).
  unfold da_set_coord. rewrite (axis_boundaries_length _ Elat).
  fold (with_coord a "lon_b" "x_b" (axis_boundaries (co_values lon))).
  case_decide as Hfit'; [|done].
  cbn [st_heap st_built]. rewrite list_insert_insert_eq. reflexivity.
Qed.

(** A run on an object with both axes in order that takes the two new
    dimensions: the store gets the same object back with [lon_b] and [lat_b]
    attached. *)
Lemma make_source_grid_ok (s : State) (l : loc) (a : DataArray) (lon lat : Coord) :
  st_heap s !! l = Some a →
  da_coords a !! "lon" = Some lon →
  da_coords a !! "lat" = Some lat →
  2 ≤ length (co_values lon) →
  2 ≤ length (co_values lat) →
  dim_fits a "lon_b" "x_b" (S (length (co_values lon))) →
  dim_fits a "lat_b" "y_b" (S (length (co_values lat))) →
  _make_source_grid (VArr l) s
  = (Ok (VArr l),
     set_heap s (<[l := with_bounds a (axis_boundaries (co_values lon))
                                      (axis_boundaries (co_values lat))]> (st_heap s))).
Proof.
  intros Hl Hlon Hlat Nlon Nlat Flon Flat.
  rewrite (make_source_grid_run s l a lon lat) by done.
  rewrite decide_True by done. rewrite decide_True; [done|].
  by apply dim_fits_with_coord.
Qed.

Lemma make_source_grid_defect (s : State) (l : loc) (a : DataArray) (e : exn) :
  st_heap s !! l = Some a →
  metadata_defect a = Some e →
  _make_source_grid (VArr l) s = (Raise e, s).
Proof.
  intros Hl. unfold metadata_defect, axis_defect.
  unfold _make_source_grid, mbind, M_bind, lift, load, da_getattr.
  rewrite Hl. unfold mbind, result_bind.
  destruct (da_coords a !! "lon") as [lon|]; [|by intros [= <-]].
  case_decide as Nlon; [intros [= <-]; by rewrite axis_step_short|].
  rewrite axis_step_long by lia.
  destruct (da_coords a !! "lat") as [lat|]; [|by intros [= <-]].
  case_decide as Nlat; [intros [= <-]; by rewrite axis_step_short|done].
Qed.

(** ** What a run of the pipeline leaves of the objects in the store *)

Lemma unchanged_refl a : unchanged_but_bounds a a.
Proof. by split_and!. Qed.

Lemma unchanged_trans a b c :
  unchanged_but_bounds a b → unchanged_but_bounds b c → unchanged_but_bounds a c.
Proof.
  intros (K1 & D1 & R1 & C1) (K2 & D2 & R2 & C2). split_and!; [congruence..|].
  intros k Hx Hy. rewrite C2, C1; done.
Qed.

Lemma unchanged_set_lon_b a v : unchanged_but_bounds a (with_coord a "lon_b" "x_b" v).
Proof. split_and!; [done..|]. intros k Hx _. simpl. by rewrite lookup_insert_ne. Qed.

Lemma unchanged_set_lat_b a v : unchanged_but_bounds a (with_coord a "lat_b" "y_b" v).
Proof. split_and!; [done..|]. intros k _ Hy. simpl. by rewrite lookup_insert_ne. Qed.

Lemma preserved_refl s : store_preserved s s.
Proof. intros l a Hl. exists a. split; [done | apply unchanged_refl]. Qed.

Lemma preserved_trans s1 s2 s3 :
  store_preserved s1 s2 → store_preserved s2 s3 → store_preserved s1 s3.
Proof.
  intros H12 H23 l a Hl.
  destruct (H12 l a Hl) as (b & Hb & Hab).
  destruct (H23 l b Hb) as (c & Hc & Hbc).
  exists c. split; [done | by eapply unchanged_trans].
Qed.

Lemma preserved_insert (s : State) (l : loc) (a a' : DataArray) :
  st_heap s !! l = Some a →
  unchanged_but_bounds a a' →
  store_preserved s (set_heap s (<[l := a']> (st_heap s))).
Proof.
  intros Hl Ha l' b Hb. simpl. destruct (decide (l = l')) as [<-|Hne].
  - exists a'. rewrite list_lookup_insert_eq by by eapply lookup_lt_Some.
    split; [done|]. by replace b with a by congruence.
  - exists b. rewrite list_lookup_insert_ne by done. split; [done | apply unchanged_refl].
Qed.

Lemma preserved_same_heap (s s' : State) :
  st_heap s' = st_heap s → store_preserved s s'.
Proof.
  intros H l a Hl. exists a. rewrite H. split; [done | apply unchanged_refl].
Qed.

Lemma preserved_alloc (s : State) (a : DataArray) : store_preserved s (alloc a s).2.
Proof.
  intros l b Hb. exists b. simpl. split; [|apply unchanged_refl].
  rewrite lookup_app_l; [done | by eapply lookup_lt_Some].
Qed.

Lemma preserved_bind {A B} (m : M A) (f : A → M B) (s : State) :
  store_preserved s (m s).2 →
  (∀ a s1, m s = (Ok a, s1) → store_preserved s1 (f a s1).2) →
  store_preserved s ((m ≫= f) s).2.
Proof.
  intros Hm Hf. unfold mbind, M_bind.
  destruct (m s) as [[a|e] s1] eqn:E; simpl in *; [|done].
  eapply preserved_trans; [exact Hm | by apply Hf].
Qed.

(** Case analysis on the outcome the goal branches on first. *)
Ltac case_result :=
  match goal with
  | |- context [match ?r with Ok _ => _ | Raise _ => _ end] => destruct r
  end.

Lemma metadata_defect_None (a : DataArray) :
  metadata_defect a = None →
  ∃ lon lat, da_coords a !! "lon" = Some lon ∧ da_coords a !! "lat" = Some lat ∧
             2 ≤ length (co_values lon) ∧ 2 ≤ length (co_values lat).
Proof.
  unfold metadata_defect, axis_defect.
  destruct (da_coords a !! "lon") as [lon|]; [|done].
  case_decide as Nlon; [done|].
  destruct (da_coords a !! "lat") as [lat|]; [|done].
  case_decide as Nlat; [done|].
  intros _. exists lon, lat. split_and!; [done | done | lia | lia].
Qed.

(** Every run of the harmonizer: it raises and leaves the store as it
    found it; or it is given a stored object with both axes in order, and
    then it attaches [lon_b] and raises on [lat_b], or attaches both and
    returns its argument. *)
Lemma make_source_grid_cases (obj : PyVal) (s : State) :
  (∃ e, _make_source_grid obj s = (Raise e, s)) ∨
  ∃ l a lon lat,
    obj = VArr l ∧ st_heap s !! l = Some a ∧
    da_coords a !! "lon" = Some lon ∧ da_coords a !! "lat" = Some lat ∧
    2 ≤ length (co_values lon) ∧ 2 ≤ length (co_values lat) ∧
    dim_fits a "lon_b" "x_b" (S (length (co_values lon))) ∧
    ((¬ dim_fits (with_coord a "lon_b" "x_b" (axis_boundaries (co_values lon)))
                 "lat_b" "y_b" (S (length (co_values lat))) ∧
      _make_source_grid obj s
      = (Raise ValueError,
         set_heap s (<[l := with_coord a "lon_b" "x_b" (axis_boundaries (co_values lon))]>
                       (st_heap s)))) ∨
     (dim_fits (with_coord a "lon_b" "x_b" (axis_boundaries (co_values lon)))
               "lat_b" "y_b" (S (length (co_values lat))) ∧
      _make_source_grid obj s
      = (Ok obj,
         set_heap s (<[l := with_bounds a (axis_boundaries (co_values lon))
                                          (axis_boundaries (co_values lat))]> (st_heap s))))).
Proof.
  destruct obj as [name|l]; [left; by exists AttributeError|].
  destruct (st_heap s !! l) as [a|] eqn:Hl.
  - destruct (metadata_defect a) as [e|] eqn:Hd.
    + left. exists e. by eapply make_source_grid_defect.
    + destruct (metadata_defect_None a Hd) as (lon & lat & Hlon & Hlat & Nlon & Nlat).
      rewrite (make_source_grid_run s l a lon lat) by done.
      case_decide as Hfit; [|left; by exists ValueError].
      right. exists l, a, lon, lat. split_and!; [done..|].
      case_decide; [by right | by left].
  - left. exists (LibraryError "ReferenceError").
    unfold _make_source_grid, mbind, M_bind, load. by rewrite Hl.
Qed.

Lemma make_source_grid_preserved (obj : PyVal) (s : State) :
  store_preserved s (_make_source_grid obj s).2.
Proof.
  destruct (make_source_grid_cases obj s)
    as [[e ->] | (l & a & lon & lat & -> & Hl & _ & _ & _ & _ & _ & [[_ ->] | [_ ->]])];
    [apply preserved_refl | |]; cbn [snd].
  - apply (preserved_insert s l a); [done | apply unchanged_set_lon_b].
  - apply (preserved_insert s l a); [done|].
    eapply unchanged_trans; [apply unchanged_set_lon_b | apply unchanged_set_lat_b].
Qed.

(** The harmonizer hands back the reference it was given. *)
Lemma make_source_grid_returns_input (obj r : PyVal) (s s' : State) :
  _make_source_grid obj s = (Ok r, s') → r = obj.
Proof.
  destruct (make_source_grid_cases obj s)
    as [[e ->] | (l & a & lon & lat & -> & _ & _ & _ & _ & _ & _ & [[_ ->] | [_ ->]])];
    [done | done | by intros [= <- _]].
Qed.

Lemma make_source_grid_built (obj : PyVal) (s : State) :
  st_built (_make_source_grid obj s).2 = st_built s ∧
  length (st_heap (_make_source_grid obj s).2) = length (st_heap s).
Proof.
  destruct (make_source_grid_cases obj s)
    as [[e ->] | (l & a & lon & lat & -> & _ & _ & _ & _ & _ & _ & [[_ ->] | [_ ->]])];
    [done | |]; cbn [snd set_heap st_heap st_built]; by rewrite length_insert.
Qed.

Section PipelineFacts.

Context {lib : Numerics}.
Context {Regridder : Type}.
Context (xe_Regridder : list DataArray → PyVal → Dest → PyVal → result Regridder).
Context (regridder_call : Regridder → list DataArray → PyVal → result DataArray).
Context (grid_2d : float → float → float → float → float → float → result Grid).
Context (qm : DataArray → DataArray → DataArray → string → result DataArray).

Abbreviation step := (regrid_step Regridder xe_Regridder regridder_call).
Abbreviation loop := (regrid_loop Regridder xe_Regridder regridder_call).
Abbreviation batch := (regrid_batch Regridder xe_Regridder regridder_call).
Abbreviation regrid_to := (_regrid_to Regridder xe_Regridder regridder_call).
Abbreviation call := (call_regrid_to Regridder xe_Regridder regridder_call).
Abbreviation run := (bcsd Regridder xe_Regridder regridder_call grid_2d qm).

(** A turn of the loop that succeeds: the source is harmonized in place,
    an operator is built for it and logged, and its output is a new object
    at the end of the store. *)
Lemma regrid_step_inv dest method obj (s s' : State) (l : loc) :
  step dest method obj s = (Ok l, s') →
  ∃ s1 r a,
    _make_source_grid obj s = (Ok obj, s1) ∧
    xe_Regridder (st_heap s1) obj dest method = Ok r ∧
    regridder_call r (st_heap s1) obj = Ok a ∧
    l = length (st_heap s) ∧
    s' = {| st_heap := st_heap s1 ++ [a];
            st_built := st_built s ++ [{| bu_source := obj; bu_dest := dest;
                                          bu_method := method |}] |}.
Proof.
  unfold regrid_step. intros H.
  apply bind_inv in H as (obj' & s1 & Hh & H).
  assert (obj' = obj) as -> by by eapply make_source_grid_returns_input.
  pose proof (make_source_grid_built obj s) as [Hb Hlen]. rewrite Hh in Hb, Hlen.
  simpl in Hb, Hlen.
  unfold mbind, M_bind, log_built, alloc in H.
  destruct (xe_Regridder (st_heap s1) obj dest method) as [r|] eqn:Hr; [|done].
  cbn [st_heap st_built] in H.
  destruct (regridder_call r (st_heap s1) obj) as [a|] eqn:Ha; [|done].
  injection H as <- <-. exists s1, r, a. rewrite Hb, Hlen. done.
Qed.

Lemma regrid_step_preserved dest method obj (s : State) :
  store_preserved s (step dest method obj s).2.
Proof.
  unfold regrid_step. apply preserved_bind; [apply make_source_grid_preserved|].
  intros obj' s1 _. unfold mbind, M_bind, log_built.
  destruct (xe_Regridder _ _ _ _) as [r|]; [|apply preserved_refl].
  cbn [st_heap st_built].
  destruct (regridder_call _ _ _) as [a|]; [|by apply preserved_same_heap].
  eapply preserved_trans; [|apply preserved_alloc]. by apply preserved_same_heap.
Qed.

(** The loop with its accumulator is the batch of the specification. *)
Lemma regrid_loop_batch dest method objs out (s : State) :
  loop dest method objs out s
  = (outs ← batch dest method objs; mret (out ++ outs)) s.
Proof.
  revert out s. induction objs as [|obj rest IH]; intros out s.
  - simpl. unfold mbind, M_bind, mret, M_ret. by rewrite app_nil_r.
  - simpl. unfold mbind, M_bind. destruct (step dest method obj s) as [[l|e] s1]; [|done].
    rewrite IH. unfold mbind, M_bind, mret, M_ret.
    destruct (batch dest method rest s1) as [[outs|e] s2]; [|done].
    by rewrite <- app_assoc.
Qed.

Lemma regrid_to_batch dest method objs (s : State) :
  regrid_to dest method objs s = batch dest method objs s.
Proof.
  unfold _regrid_to. rewrite regrid_loop_batch. unfold mbind, M_bind, mret, M_ret.
  by destruct (batch dest method objs s) as [[outs|e] s1].
Qed.

(** One output per source, at consecutive new locations, and one operator
    built per source, in the order of the sources. *)
Lemma regrid_batch_ok dest method objs (s s' : State) outs :
  batch dest method objs s = (Ok outs, s') →
  outs = seq (length (st_heap s)) (length objs) ∧
  length (st_heap s') = length (st_heap s) + length objs ∧
  st_built s' = st_built s ++ ((fun obj => {| bu_source := obj; bu_dest := dest;
                                              bu_method := method |}) <$> objs).
Proof.
  revert s outs. induction objs as [|obj rest IH]; intros s outs H.
  - injection H as <- <-. simpl. rewrite app_nil_r. done.
  - simpl in H. apply bind_inv in H as (l & s1 & Hstep & H).
    apply bind_inv in H as (ls & s2 & Hrest & H). injection H as <- <-.
    apply regrid_step_inv in Hstep as (s0 & r & a & Hh & _ & _ & -> & ->).
    apply IH in Hrest as (-> & Hlen & Hb).
    pose proof (make_source_grid_built obj s) as [_ Hl0]. rewrite Hh in Hl0.
    cbn [st_heap st_built snd] in *. rewrite length_app in *. simpl in *.
    rewrite Hl0 in *. split_and!.
    + f_equal. f_equal. lia.
    + lia.
    + rewrite Hb, <- app_assoc. done.
Qed.

Lemma regrid_batch_preserved dest method objs (s : State) :
  store_preserved s (batch dest method objs s).2.
Proof.
  revert s. induction objs as [|obj rest IH]; intros s; [apply preserved_refl|].
  simpl. apply preserved_bind; [apply regrid_step_preserved|].
  intros l s1 _. apply preserved_bind; [apply IH|].
  intros ls s2 _. apply preserved_refl.
Qed.

Lemma call_preserved dest args kwargs (s : State) :
  store_preserved s (call dest args kwargs s).2.
Proof.
  unfold call_regrid_to. apply preserved_bind; [apply preserved_refl|].
  intros bound s1 _. rewrite regrid_to_batch. apply regrid_batch_preserved.
Qed.

(** The first call of [bcsd] passes four positional arguments: the second
    one binds to [method], and two sources are left. *)
Lemma first_call_two_outputs dest a b c (s s' : State) out :
  call dest [a; b; c] [] s = (Ok out, s') → length out = 2.
Proof.
  unfold call_regrid_to. intros H. apply bind_inv in H as (bound & s1 & Hb & H).
  injection Hb as <- <-. simpl in H. rewrite regrid_to_batch in H.
  apply regrid_batch_ok in H as (-> & _). by rewrite length_seq.
Qed.

(** The second call passes two positional arguments and [method] again by
    keyword. *)
Lemma second_call_raises dest a m (s : State) :
  call dest [a] [("method", m)] s = (Raise TypeError, s).
Proof. reflexivity. Qed.

Lemma bcsd_raises da_obs da_train da_predict var (s : State) :
  ∃ e, (run da_obs da_train da_predict var s).1 = Raise e.
Proof.
  unfold bcsd, mbind, M_bind at 1 2 3 4 5, lift, load.
  destruct (st_heap s !! da_obs) as [obs|]; [|by eexists].
  destruct (get_bounds obs "lat" "lon") as [bounds|]; [|by eexists].
  destruct (grid_2d _ _ _ _ _ _) as [g|]; [|by eexists].
  destruct (call _ _ _ s) as [[out|e] s1] eqn:Hcall; [|by eexists].
  apply first_call_two_outputs in Hcall.
  destruct out as [|x [|y [|z out]]]; try discriminate. by eexists.
Qed.

Lemma bcsd_preserved da_obs da_train da_predict var (s : State) :
  store_preserved s (run da_obs da_train da_predict var s).2.
Proof.
  unfold bcsd.
  apply preserved_bind; [unfold load; destruct (_ !! _); apply preserved_refl|].
  intros obs s1 _. apply preserved_bind; [apply preserved_refl|].
  intros bounds s2 _. apply preserved_bind; [apply preserved_refl|].
  intros g s3 _. apply preserved_bind; [apply call_preserved|].
  intros out s4 _. apply preserved_bind; [apply preserved_refl|].
  intros regridded s5 _.
  do 3 (apply preserved_bind;
        [unfold load; destruct (_ !! _); apply preserved_refl | intros ? ? _]).
  apply preserved_bind; [apply preserved_refl|].
  intros anoms s9 _. apply preserved_bind; [apply preserved_alloc|].
  intros l s10 _. apply preserved_bind; [apply call_preserved|].
  intros out' s11 _. apply preserved_bind; [apply preserved_refl|].
  intros r s12 _. apply preserved_refl.
Qed.

End PipelineFacts.

(** ** Calendar months of a series that spans a year *)

Lemma month_number_range (m : Month) : (1 ≤ month_number m ≤ 12)%Z.
Proof. destruct m; simpl; lia. Qed.

Lemma month_number_inj (m m' : Month) : month_number m = month_number m' → m = m'.
Proof. destruct m, m'; simpl; intros H; try done; lia. Qed.

Lemma month_ordinal_mod (t : Timestamp) :
  (month_ordinal t mod 12 = month_number (ts_month t) - 1)%Z.
Proof.
  unfold month_ordinal. pose proof (month_number_range (ts_month t)).
  rewrite Z.add_comm, Z_mod_plus_full. apply Z.mod_small. lia.
Qed.

(** A series at regular cadence visits every month between its first and
    its last step. *)
Lemma regular_cadence_visits (t0 : Timestamp) (ts : list Timestamp) (tn : Timestamp) (k : Z) :
  regular_cadence (t0 :: ts) = true →
  last (t0 :: ts) = Some tn →
  (month_ordinal t0 ≤ k ≤ month_ordinal tn)%Z →
  ∃ t, t ∈ t0 :: ts ∧ month_ordinal t = k.
Proof.
  revert t0. induction ts as [|t1 rest IH]; intros t0 Hc Hl Hk.
  - injection Hl as <-. exists t0. split; [constructor | lia].
  - simpl in Hc. apply andb_prop in Hc as [Hc Hrest]. apply andb_prop in Hc as [H1 H2].
    apply Z.leb_le in H1, H2.
    destruct (decide (k = month_ordinal t0)) as [->|Hne].
    + exists t0. split; [constructor | done].
    + destruct (IH t1 Hrest) as (t & Ht & Hord); [done | lia |].
      exists t. split; [by constructor | done].
Qed.

Lemma spans_full_year_all_months (ts : list Timestamp) (m : Month) :
  spans_full_year ts = true → ∃ t, t ∈ ts ∧ ts_month t = m.
Proof.
  unfold spans_full_year. intros H. apply andb_prop in H as [Hc H].
  destruct ts as [|t0 rest]; [done|].
  destruct (last (t0 :: rest)) as [tn|] eqn:Hl; [|done].
  apply Z.leb_le in H.
  pose proof (month_number_range m) as Hm.
  set (k := (month_ordinal t0 + (month_number m - 1 - month_ordinal t0) mod 12)%Z).
  assert (Hr : (0 ≤ (month_number m - 1 - month_ordinal t0) mod 12 < 12)%Z)
    by (apply Z.mod_pos_bound; lia).
  destruct (regular_cadence_visits t0 rest tn k Hc Hl) as (t & Ht & Hord); [lia|].
  exists t. split; [done|]. apply month_number_inj.
  pose proof (month_ordinal_mod t) as Ht12. rewrite Hord in Ht12.
  assert (Hk : (k mod 12 = month_number m - 1)%Z).
  { unfold k. rewrite Zplus_mod_idemp_r.
    replace (month_ordinal t0 + (month_number m - 1 - month_ordinal t0))%Z
      with (month_number m - 1)%Z by lia.
    apply Z.mod_small. lia. }
  lia.
Qed.

Lemma filter_all {A} (f : A → bool) (l : list A) :
  (∀ x, x ∈ l → f x = true) → List.filter f l = l.
Proof.
  induction l as [|x l IH]; intros H; [done|]. simpl.
  rewrite H by set_solver. f_equal. apply IH. intros y Hy. apply H. set_solver.
Qed.

Lemma months_present_full (rows : list (Timestamp * list float)) :
  spans_full_year rows.*1 = true → months_present rows = all_months.
Proof.
  intros H. unfold months_present. apply filter_all. intros m _.
  destruct (spans_full_year_all_months _ m H) as (t & Ht & Hm).
  apply list_elem_of_fmap in Ht as ([t' v] & -> & Hin).
  apply existsb_exists. exists (t', v). split; [by apply list_elem_of_In|].
  unfold in_month. by apply bool_decide_eq_true.
Qed.

(** ** Looking up a month *)

Lemma find_month {B} (ms : list Month) (F : Month → B) (m : Month) :
  m ∈ ms →
  List.find (fun r : Month * B => bool_decide (r.1 = m)) ((fun m => (m, F m)) <$> ms)
  = Some (m, F m).
Proof.
  induction ms as [|m' ms IH]; intros Hin.
  - by apply not_elem_of_nil in Hin.
  - rewrite fmap_cons. simpl. destruct (decide (m' = m)) as [->|Hne].
    + by rewrite bool_decide_eq_true_2.
    + rewrite bool_decide_eq_false_2 by done.
      apply elem_of_cons in Hin as [->|Hin]; [done | by apply IH].
Qed.

Lemma clim_sel_present (ms : list Month) (F : Month → list float) coords (m : Month) :
  m ∈ ms →
  clim_sel {| cl_rows := (fun m => (m, F m)) <$> ms; cl_coords := coords |} m = F m.
Proof. intros Hin. unfold clim_sel. simpl. by rewrite find_month. Qed.

Lemma group_result_present (ms : list Month) (F : Month → list (list float)) (m : Month) :
  m ∈ ms → group_result m ((fun m => (m, F m)) <$> ms) = F m.
Proof. intros Hin. unfold group_result. by rewrite find_month. Qed.

Lemma all_months_complete (m : Month) : m ∈ all_months.
Proof. destruct m; unfold all_months; repeat first [by left | right]. Qed.

Lemma months_present_spec (rows : list (Timestamp * list float)) (m : Month) :
  m ∈ months_present rows ↔ ∃ r, r ∈ rows ∧ ts_month r.1 = m.
Proof.
  unfold months_present. rewrite list_elem_of_In, filter_In, existsb_exists.
  split.
  - intros (_ & r & Hr & Hm). exists r. split; [by apply list_elem_of_In|].
    unfold in_month in Hm. by apply bool_decide_eq_true in Hm.
  - intros (r & Hr & Hm). split; [apply list_elem_of_In, all_months_complete|].
    exists r. split; [by apply list_elem_of_In|]. unfold in_month.
    by apply bool_decide_eq_true.
Qed.

Lemma filter_sublist {A} (f : A → bool) (l : list A) : sublist (List.filter f l) l.
Proof.
  induction l as [|x l IH]; simpl; [constructor|].
  destruct (f x); by constructor.
Qed.

Lemma group_rows_nonempty (rows : list (Timestamp * list float)) (m : Month) :
  m ∈ months_present rows → group_rows m rows ≠ [].
Proof.
  intros (r & Hr & Hm)%months_present_spec. unfold group_rows.
  assert (Hin : r ∈ List.filter (in_month m) rows).
  { apply list_elem_of_In, filter_In. split; [by apply list_elem_of_In|].
    unfold in_month. by apply bool_decide_eq_true. }
  destruct (List.filter (in_month m) rows); [by apply not_elem_of_nil in Hin | done].
Qed.

(** ** Row-wise evaluation *)

Lemma result_bind_Ok {A B} (a : A) (f : A → result B) : (Ok a ≫= f) = f a.
Proof. reflexivity. Qed.

Lemma map_result_fmap {A B} (f : A → result B) (g : A → B) (l : list A) :
  Forall (fun x => f x = Ok (g x)) l → map_result f l = Ok (g <$> l).
Proof.
  induction 1 as [|x l Hx _ IH]; [done|]. simpl. by rewrite Hx, IH.
Qed.

Lemma row_binop_ok (f : float → float → float) (v w : list float) :
  length v = length w → row_binop f v w = Ok (zip_with f v w).
Proof. intros H. unfold row_binop. by rewrite decide_True. Qed.

Lemma groupby_month_div_ok (q : DataArray) (clim : Climatology) :
  da_rows q ≠ [] →
  widths_match q clim →
  groupby_month_div q clim = Ok (with_rows q (ratio_rows q clim)).
Proof.
  intros Hne Hw. unfold groupby_month_div.
  destruct (da_rows q) as [|r0 rows] eqn:E; [done|]. rewrite <- E.
  erewrite map_result_fmap; [reflexivity|].
  eapply Forall_impl; [exact Hw|]. intros r Hr. simpl. by rewrite row_binop_ok.
Qed.

(** ** Arithmetic on series of one shape *)

Lemma same_shape_time (a b : DataArray) : same_shape a b → da_time a = da_time b.
Proof.
  unfold same_shape, da_time. induction 1 as [|ra rb la lb [H _] _ IH]; [done|].
  rewrite !fmap_cons. by rewrite H, IH.
Qed.

Lemma same_shape_sym (a b : DataArray) : same_shape a b → same_shape b a.
Proof.
  unfold same_shape. intros H. apply Forall2_flip. eapply Forall2_impl; [exact H|].
  simpl. intros ? ? [? ?]. done.
Qed.

Lemma same_shape_trans (a b c : DataArray) :
  same_shape a b → same_shape b c → same_shape a c.
Proof.
  unfold same_shape. intros H1 H2. eapply Forall2_trans; [| exact H1 | exact H2].
  simpl. intros ? ? ? [? ?] [? ?]. split; congruence.
Qed.

Lemma map_result_zip (f : float → float → float) (la lb : list (Timestamp * list float)) :
  Forall2 (fun ra rb : Timestamp * list float => ra.1 = rb.1 ∧ length ra.2 = length rb.2)
          la lb →
  map_result (fun r : Timestamp * (list float * list float) =>
                v ← row_binop f r.2.1 r.2.2; Ok (r.1, v))
             (zip la.*1 (zip la.*2 lb.*2))
  = Ok (zip_rows f la lb).
Proof.
  induction 1 as [|ra rb la lb [_ Hlen] _ IH]; [done|].
  rewrite !fmap_cons. simpl. rewrite row_binop_ok by done. simpl.
  unfold zip_rows in IH. by rewrite IH.
Qed.

Lemma da_binop_same_shape (f : float → float → float) (a b : DataArray) :
  same_shape a b →
  da_binop f a b = Ok (with_rows a (zip_rows f (da_rows a) (da_rows b))).
Proof.
  intros H. unfold da_binop, align_rows.
  rewrite decide_True by exact (same_shape_time _ _ H).
  by rewrite map_result_zip.
Qed.

Lemma zip_rows_shape (f : float → float → float) (a b x : DataArray) :
  same_shape a b →
  same_shape a (with_rows x (zip_rows f (da_rows a) (da_rows b))).
Proof.
  unfold same_shape. simpl. induction 1 as [|ra rb la lb [_ Hlen] _ IH]; [done|].
  simpl. constructor; [|done]. simpl. split; [done|]. rewrite length_zip_with. lia.
Qed.

(** ** Grouping *)

Lemma group_rows_app (m : Month) (l1 l2 : list (Timestamp * list float)) :
  group_rows m (l1 ++ l2) = group_rows m l1 ++ group_rows m l2.
Proof. unfold group_rows. by rewrite List.filter_app, fmap_app. Qed.

(** A time step sits in the group of its month at the position that counts
    the earlier steps of that month. *)
Lemma group_position (rows : list (Timestamp * list float)) (i : nat)
    (t : Timestamp) (v : list float) :
  rows !! i = Some (t, v) →
  group_rows (ts_month t) rows !! length (group_rows (ts_month t) (take i rows)) = Some v.
Proof.
  intros Hi. pose proof (take_drop_middle rows i (t, v) Hi) as E.
  set (before := take i rows) in *. set (after := drop (S i) rows) in *.
  rewrite <- E. rewrite group_rows_app. rewrite lookup_app_r by lia. rewrite Nat.sub_diag.
  unfold group_rows. simpl. unfold in_month at 1. simpl.
  by rewrite bool_decide_eq_true_2.
Qed.

Lemma agree_group_rows (m : Month) (rows rows' : list (Timestamp * list float)) :
  agree_in_month m rows rows' → group_rows m rows = group_rows m rows'.
Proof.
  unfold group_rows. induction 1 as [|r r' rows rows' [Ht Hm] _ IH]; [done|].
  assert (E : in_month m r' = in_month m r) by (unfold in_month; by rewrite Ht).
  simpl. rewrite E. destruct (in_month m r) eqn:Hin; [|done].
  unfold in_month in Hin. apply bool_decide_eq_true in Hin.
  rewrite !fmap_cons. by rewrite IH, (Hm Hin).
Qed.

(** The cells of a group, read off the series itself. *)
Lemma column_values_in_month (m : Month) (c n : nat) (rows : list (Timestamp * list float)) :
  Forall (fun r : Timestamp * list float => length r.2 = n) rows →
  c < n →
  column c (group_rows m rows) = values_in_month m c rows.
Proof.
  intros Hn Hc. unfold column, group_rows, values_in_month.
  induction Hn as [|r rows Hr _ IH]; [done|].
  simpl. unfold in_month at 1.
  destruct (lookup_lt_is_Some_2 r.2 c) as [x Hx]; [lia|].
  case_bool_decide as Hm.
  - rewrite decide_True by done. rewrite Hx. rewrite !fmap_cons. simpl.
    by rewrite (nth_lookup_Some _ _ _ _ Hx), IH.
  - rewrite decide_False by done. exact IH.
Qed.

Lemma width_group (m : Month) (n : nat) (rows : list (Timestamp * list float)) :
  Forall (fun r : Timestamp * list float => length r.2 = n) rows →
  group_rows m rows ≠ [] →
  width (group_rows m rows) = n.
Proof.
  intros Hn Hne. unfold group_rows in *.
  destruct (List.filter (in_month m) rows) as [|r g] eqn:E; [done|].
  simpl. rewrite Forall_forall in Hn. apply Hn.
  apply list_elem_of_In. eapply proj1. apply (filter_In (in_month m)). rewrite E. by left.
Qed.

Section GroupingFacts.

Context {lib : Numerics}.

Lemma mean_over_time_lookup (rows : list (list float)) (c : nat) :
  c < width rows → mean_over_time rows !! c = Some (nanmean (column c rows)).
Proof.
  intros Hc. unfold mean_over_time. rewrite list_lookup_fmap, lookup_seq_lt by done.
  done.
Qed.


(** The entry the climatology holds for a month is the one [sel] finds. *)
Lemma clim_sel_member (t : DataArray) (clim : Climatology) (m : Month) (e : list float) :
  groupby_month_mean t = Ok clim →
  (m, e) ∈ cl_rows clim →
  clim_sel clim m = e.
Proof.
  unfold groupby_month_mean. destruct (da_rows t) eqn:E; [done|]. rewrite <- E.
  intros [= <-] Hin. cbn [cl_rows] in Hin.
  apply list_elem_of_fmap in Hin as (m' & [= <- ->] & Hm). by apply clim_sel_present.
Qed.

(** [groupby(...).apply(f)] when [f] returns on every group. *)
Lemma groupby_apply_ok (f : list (list float) → result (list (list float)))
    (F : list (list float) → list (list float)) (a : DataArray) :
  da_rows a ≠ [] →
  (∀ m, m ∈ months_present (da_rows a) →
        f (group_rows m (da_rows a)) = Ok (F (group_rows m (da_rows a)))) →
  groupby_month_apply f a
  = Ok (with_rows a
          (imap (fun i row =>
                   (row.1,
                    nth (length (group_rows (ts_month row.1) (take i (da_rows a))))
                        (F (group_rows (ts_month row.1) (da_rows a))) []))
                (da_rows a))).
Proof.
  intros Hne Hf. unfold groupby_month_apply.
  destruct (da_rows a) as [|r0 rows] eqn:E; [done|]. rewrite <- E in *. clear Hne E r0 rows.
  rewrite (map_result_fmap _ (fun m => (m, F (group_rows m (da_rows a))))).
  - rewrite result_bind_Ok. f_equal. f_equal. apply imap_ext. intros i [t v] Hi. simpl.
    rewrite (group_result_present _ (fun m => F (group_rows m (da_rows a)))); [done|].
    apply months_present_spec. exists (t, v). split; [by eapply list_elem_of_lookup_2 | done].
  - apply Forall_forall. intros m Hm. by rewrite (Hf m Hm).
Qed.

(** ** Rolling means within the groups of a calendar month *)

Lemma running_mean_ok (window : nat) (center : bool) (min_periods : nat)
    (g : list (list float)) :
  1 ≤ min_periods → min_periods ≤ window →
  _running_mean window center min_periods g
  = Ok (imap (fun j row =>
                (fun c => rolling_value window center min_periods (column c g) j)
                  <$> seq 0 (length row)) g).
Proof.
  intros H1 H2. unfold _running_mean.
  assert (E1 : (window =? 0) = false) by (apply Nat.eqb_neq; lia).
  assert (E2 : (min_periods =? 0) = false) by (apply Nat.eqb_neq; lia).
  assert (E3 : (window <? min_periods) = false) by (apply Nat.ltb_ge; lia).
  by rewrite E1, E2, E3.
Qed.

Lemma running_mean_refused (window : nat) (center : bool) (min_periods : nat)
    (g : list (list float)) :
  window = 0 ∨ min_periods = 0 →
  _running_mean window center min_periods g = Raise ValueError.
Proof.
  intros [-> | ->]; unfold _running_mean; simpl; [done|].
  by rewrite orb_true_r.
Qed.

Lemma groupby_rolling_mean_ok (window : nat) (center : bool) (min_periods : nat)
    (p : DataArray) :
  da_rows p ≠ [] →
  1 ≤ min_periods → min_periods ≤ window →
  groupby_month_apply (_running_mean window center min_periods) p
  = Ok (with_rows p (rolling_mean_rows window center min_periods (da_rows p))).
Proof.
  intros Hne H1 H2.
  rewrite (groupby_apply_ok _
             (fun g => imap (fun j row =>
                               (fun c => rolling_value window center min_periods (column c g) j)
                                 <$> seq 0 (length row)) g)); [|done|].
  - f_equal. f_equal. unfold rolling_mean_rows. apply imap_ext. intros i [t v] Hi. simpl.
    f_equal. apply nth_lookup_Some. rewrite list_lookup_imap.
    by rewrite (group_position _ _ _ _ Hi).
  - intros m _. by apply running_mean_ok.
Qed.

Lemma rolling_mean_shape (window : nat) (center : bool) (min_periods : nat)
    (p x : DataArray) :
  same_shape p (with_rows x (rolling_mean_rows window center min_periods (da_rows p))).
Proof.
  unfold same_shape, rolling_mean_rows. simpl.
  apply Forall2_same_length_lookup. split; [by rewrite length_imap|].
  intros i [t v] [t' v'] Hi. rewrite list_lookup_imap, Hi. simpl. intros [= <- <-].
  split; [done|]. unfold rolling_mean_row. by rewrite length_fmap, length_seq.
Qed.

Lemma agree_rolling_mean (window : nat) (center : bool) (min_periods : nat) (m : Month)
    (rows rows' : list (Timestamp * list float)) (i : nat) (t : Timestamp) (v : list float) :
  agree_in_month m rows rows' →
  rows !! i = Some (t, v) →
  ts_month t = m →
  rolling_mean_rows window center min_periods rows !! i
  = rolling_mean_rows window center min_periods rows' !! i.
Proof.
  intros Hag Hi Hm.
  destruct (Forall2_lookup_l _ _ _ _ _ Hag Hi) as (r' & Hi' & Ht & Heq).
  specialize (Heq Hm). subst r'.
  unfold rolling_mean_rows. rewrite !list_lookup_imap, Hi, Hi'. simpl. f_equal. f_equal.
  unfold rolling_mean_row. subst m.
  rewrite (agree_group_rows _ _ _ Hag).
  by rewrite (agree_group_rows _ (take i rows) (take i rows')) by by apply Forall2_take.
Qed.

(** ** The difference of the temperature branch *)

Lemma zip_with_sub_add (vq vr : list float) :
  zip_with PrimFloat.sub vq (zip_with PrimFloat.add vr vq) = zip_with qm_minus_shifted vq vr.
Proof.
  revert vr. induction vq as [|x vq IH]; intros [|r vr]; try done.
  simpl. by rewrite IH.
Qed.

Lemma zip_rows_sub_add (lq lr : list (Timestamp * list float)) :
  zip_rows PrimFloat.sub lq (zip_rows PrimFloat.add lr lq) = zip_rows qm_minus_shifted lq lr.
Proof.
  unfold zip_rows. revert lr. induction lq as [|rq lq IH]; intros [|rr lr]; try done.
  simpl. by rewrite IH, zip_with_sub_add.
Qed.

Section Branches.

Context (qm : DataArray → DataArray → DataArray → string → result DataArray).

Lemma temperature_anoms_ok (o t p q : DataArray) :
  da_rows p ≠ [] →
  qm p t o "time.month" = Ok q →
  same_shape p q →
  temperature_anoms qm o t p
  = Ok (with_rows q (zip_rows qm_minus_shifted (da_rows q)
                              (rolling_mean_rows 9 true 1 (da_rows p)))).
Proof.
  intros Hne Hq Hpq. unfold temperature_anoms, da_sub, da_add.
  rewrite groupby_rolling_mean_ok, result_bind_Ok by (done || lia). cbv beta.
  pose proof (rolling_mean_shape 9 true 1 p p) as Hrm.
  rewrite (da_binop_same_shape _ _ _ Hrm), result_bind_Ok. cbv beta.
  rewrite Hq, result_bind_Ok. cbv beta.
  assert (Hrq : same_shape (with_rows p (rolling_mean_rows 9 true 1 (da_rows p))) q)
    by (eapply same_shape_trans; [apply same_shape_sym, Hrm | exact Hpq]).
  rewrite (da_binop_same_shape _ _ _ Hrq), result_bind_Ok. cbv beta.
  rewrite da_binop_same_shape.
  - simpl. by rewrite zip_rows_sub_add.
  - eapply same_shape_trans; [apply same_shape_sym, Hrq|]. by apply zip_rows_shape.
Qed.

Lemma analysis_anoms_other (var : string) (o t p : DataArray) (clim : Climatology) :
  var ≠ "pr" →
  groupby_month_mean t = Ok clim →
  analysis_anoms qm var o t p = temperature_anoms qm o t p.
Proof.
  intros Hvar Hclim. unfold analysis_anoms. rewrite Hclim, result_bind_Ok.
  by rewrite bool_decide_eq_false_2.
Qed.

Lemma analysis_anoms_pr (o t p q : DataArray) (clim : Climatology) :
  groupby_month_mean t = Ok clim →
  qm p t o "time.month" = Ok q →
  analysis_anoms qm "pr" o t p = groupby_month_div q clim.
Proof.
  intros Hclim Hq. unfold analysis_anoms, precipitation_anoms.
  rewrite Hclim, result_bind_Ok. simpl. by rewrite Hq, result_bind_Ok.
Qed.

End Branches.

End GroupingFacts.

(** ** Division by a zero of either sign *)

Lemma is_zero_spec (z : float) :
  PrimFloat.is_zero z = true → ∃ s, Prim2SF z = S754_zero s.
Proof.
  unfold PrimFloat.is_zero. rewrite FloatAxioms.eqb_spec.
  change (Prim2SF 0%float) with (S754_zero false).
  destruct (Prim2SF z) as [s| s | |s m e]; try destruct s; try discriminate; eauto.
Qed.

Lemma div_by_zero_not_finite (x z : float) :
  PrimFloat.is_zero z = true → PrimFloat.is_finite (x / z)%float = false.
Proof.
  intros Hz. apply is_zero_spec in Hz as [sz Hz].
  unfold PrimFloat.is_finite, PrimFloat.is_nan, PrimFloat.is_infinity.
  rewrite !FloatAxioms.eqb_spec, FloatAxioms.abs_spec, FloatAxioms.div_spec, Hz.
  change (Prim2SF infinity) with (S754_infinity false).
  destruct (Prim2SF x) as [s| s | |s m e]; try destruct s; destruct sz; reflexivity.
Qed.

(** ** NaN and infinity in the difference of the temperature branch *)

Lemma not_finite_spec (x : float) :
  PrimFloat.is_finite x = false →
  Prim2SF x = S754_nan ∨ ∃ s, Prim2SF x = S754_infinity s.
Proof.
  unfold PrimFloat.is_finite, PrimFloat.is_nan, PrimFloat.is_infinity.
  rewrite !FloatAxioms.eqb_spec, FloatAxioms.abs_spec.
  change (Prim2SF infinity) with (S754_infinity false).
  destruct (Prim2SF x) as [s|s| |s m e]; eauto.
  - destruct s; discriminate.
  - unfold SFeqb. simpl. rewrite Z.compare_refl.
    change (Pos.compare_cont Eq m m) with (Pos.compare m m). rewrite Pos.compare_refl.
    destruct s; discriminate.
Qed.

Lemma is_nan_true_spec (x : float) :
  Prim2SF x = S754_nan → PrimFloat.is_nan x = true.
Proof.
  intros H. unfold PrimFloat.is_nan. by rewrite FloatAxioms.eqb_spec, H.
Qed.

Lemma qm_minus_shifted_not_finite (x r : float) :
  PrimFloat.is_finite x = false → PrimFloat.is_nan (qm_minus_shifted x r) = true.
Proof.
  intros Hx. apply is_nan_true_spec. unfold qm_minus_shifted.
  rewrite FloatAxioms.sub_spec, FloatAxioms.add_spec.
  destruct (not_finite_spec x Hx) as [-> | [sx ->]].
  - by destruct (Prim2SF r).
  - destruct (Prim2SF r) as [s|s| |s m e]; try destruct s; destruct sx; reflexivity.
Qed.

(** ** The order of binary64 numbers *)

Lemma SFleb_key (x y : spec_float) :
  x ≠ S754_nan → y ≠ S754_nan →
  SFleb x y = true ↔ key_le (sf_key x) (sf_key y).
Proof.
  intros Hx Hy. unfold SFleb, key_le.
  destruct x as [sx|sx| |sx mx ex], y as [sy|sy| |sy my ey]; try done;
    try destruct sx; try destruct sy; simpl; try (split; [lia | done]);
    try (split; [done | lia]).
  - destruct (Z.compare_spec ex ey) as [->|?|?]; simpl;
      try (split; [lia | done]); try (split; [done | lia]).
    change (Pos.compare_cont Eq mx my) with (Pos.compare mx my).
    destruct (Pos.compare_spec mx my) as [->|?|?]; simpl;
      try (split; [lia | done]); try (split; [done | lia]).
  - destruct (Z.compare_spec ex ey) as [->|?|?]; simpl;
      try (split; [lia | done]); try (split; [done | lia]).
    change (Pos.compare_cont Eq mx my) with (Pos.compare mx my).
    destruct (Pos.compare_spec mx my) as [->|?|?]; simpl;
      try (split; [lia | done]); try (split; [done | lia]).
Qed.

Lemma SFltb_key (x y : spec_float) :
  x ≠ S754_nan → y ≠ S754_nan →
  SFltb x y = false ↔ key_le (sf_key y) (sf_key x).
Proof.
  intros Hx Hy. unfold SFltb, key_le.
  destruct x as [sx|sx| |sx mx ex], y as [sy|sy| |sy my ey]; try done;
    try destruct sx; try destruct sy; simpl; try (split; [lia | done]);
    try (split; [done | lia]).
  - destruct (Z.compare_spec ex ey) as [->|?|?]; simpl;
      try (split; [lia | done]); try (split; [done | lia]).
    change (Pos.compare_cont Eq mx my) with (Pos.compare mx my).
    destruct (Pos.compare_spec mx my) as [->|?|?]; simpl;
      try (split; [lia | done]); try (split; [done | lia]).
  - destruct (Z.compare_spec ex ey) as [->|?|?]; simpl;
      try (split; [lia | done]); try (split; [done | lia]).
    change (Pos.compare_cont Eq mx my) with (Pos.compare mx my).
    destruct (Pos.compare_spec mx my) as [->|?|?]; simpl;
      try (split; [lia | done]); try (split; [done | lia]).
Qed.

Lemma is_nan_false_spec (x : float) :
  PrimFloat.is_nan x = false ↔ Prim2SF x ≠ S754_nan.
Proof.
  unfold PrimFloat.is_nan. rewrite FloatAxioms.eqb_spec. unfold SFeqb.
  destruct (Prim2SF x) as [s|s| |s m e]; simpl.
  - split; done.
  - destruct s; split; done.
  - split; done.
  - rewrite Z.compare_refl.
    change (Pos.compare_cont Eq m m) with (Pos.compare m m). rewrite Pos.compare_refl.
    destruct s; split; done.
Qed.

Lemma float_leb_refl (x : float) : PrimFloat.is_nan x = false → (x <=? x)%float = true.
Proof.
  intros Hx%is_nan_false_spec. rewrite FloatAxioms.leb_spec.
  apply SFleb_key; [done | done |]. unfold key_le. lia.
Qed.

Lemma float_leb_trans (x y z : float) :
  PrimFloat.is_nan x = false → PrimFloat.is_nan y = false → PrimFloat.is_nan z = false →
  (x <=? y)%float = true → (y <=? z)%float = true → (x <=? z)%float = true.
Proof.
  intros Hx%is_nan_false_spec Hy%is_nan_false_spec Hz%is_nan_false_spec.
  rewrite !FloatAxioms.leb_spec. rewrite !SFleb_key by done. unfold key_le. lia.
Qed.

Lemma float_not_ltb_leb (x y : float) :
  PrimFloat.is_nan x = false → PrimFloat.is_nan y = false →
  (y <? x)%float = false → (x <=? y)%float = true.
Proof.
  intros Hx%is_nan_false_spec Hy%is_nan_false_spec.
  rewrite FloatAxioms.ltb_spec, FloatAxioms.leb_spec.
  rewrite SFltb_key, SFleb_key by done. done.
Qed.

Lemma float_ltb_leb (x y : float) :
  PrimFloat.is_nan x = false → PrimFloat.is_nan y = false →
  (x <? y)%float = true → (x <=? y)%float = true.
Proof.
  intros Hx%is_nan_false_spec Hy%is_nan_false_spec.
  rewrite FloatAxioms.ltb_spec, FloatAxioms.leb_spec. unfold SFltb, SFleb.
  by destruct (SFcompare _ _) as [[]|].
Qed.

(** ** [get_bounds] *)

Lemma np_minimum_spec (x y : float) :
  PrimFloat.is_nan x = false → PrimFloat.is_nan y = false →
  PrimFloat.is_nan (np_minimum x y) = false ∧
  (np_minimum x y = x ∨ np_minimum x y = y) ∧
  (np_minimum x y <=? x)%float = true ∧ (np_minimum x y <=? y)%float = true.
Proof.
  intros Hx Hy. unfold np_minimum. rewrite Hx, orb_false_r.
  destruct (x <? y)%float eqn:E.
  - split_and!; [done | by left | by apply float_leb_refl | by apply float_ltb_leb].
  - split_and!; [done | by right | by apply float_not_ltb_leb | by apply float_leb_refl].
Qed.

Lemma np_maximum_spec (x y : float) :
  PrimFloat.is_nan x = false → PrimFloat.is_nan y = false →
  PrimFloat.is_nan (np_maximum x y) = false ∧
  (np_maximum x y = x ∨ np_maximum x y = y) ∧
  (x <=? np_maximum x y)%float = true ∧ (y <=? np_maximum x y)%float = true.
Proof.
  intros Hx Hy. unfold np_maximum. rewrite Hx, orb_false_r.
  destruct (y <? x)%float eqn:E.
  - split_and!; [done | by left | by apply float_leb_refl | by apply float_ltb_leb].
  - split_and!; [done | by right | by apply float_not_ltb_leb | by apply float_leb_refl].
Qed.

Lemma fold_minimum_spec (xs : list float) (acc : float) :
  no_nan xs → PrimFloat.is_nan acc = false →
  let m := fold_left np_minimum xs acc in
  PrimFloat.is_nan m = false ∧ m ∈ acc :: xs ∧
  ∀ v, v ∈ acc :: xs → (m <=? v)%float = true.
Proof.
  revert acc. induction xs as [|x xs IH]; intros acc Hxs Hacc; cbv zeta; simpl.
  - split_and!; [done | by left |]. intros v Hv.
    apply list_elem_of_singleton in Hv as ->. by apply float_leb_refl.
  - apply Forall_cons in Hxs as [Hx Hxs].
    destruct (np_minimum_spec acc x Hacc Hx) as (Hn & Hor & Ha & Hb).
    destruct (IH _ Hxs Hn) as (Hm & Hin & Hle). split_and!; [done | |].
    + apply elem_of_cons in Hin as [Hin|Hin].
      * rewrite Hin. destruct Hor as [-> | ->]; [by left | right; by left].
      * right. by right.
    + intros v Hv.
      assert (Hvn : PrimFloat.is_nan v = false).
      { apply elem_of_cons in Hv as [Hv|Hv]; [by rewrite Hv|].
        apply elem_of_cons in Hv as [Hv|Hv]; [by rewrite Hv|].
        unfold no_nan in Hxs. rewrite Forall_forall in Hxs. by apply Hxs. }
      assert (Hmacc : (fold_left np_minimum xs (np_minimum acc x) <=? np_minimum acc x)%float
                      = true) by (apply Hle; by left).
      apply elem_of_cons in Hv as [Hv|Hv];
        [rewrite Hv; by apply (float_leb_trans _ (np_minimum acc x))|].
      apply elem_of_cons in Hv as [Hv|Hv];
        [rewrite Hv; by apply (float_leb_trans _ (np_minimum acc x))|].
      apply Hle. by right.
Qed.

Lemma fold_maximum_spec (xs : list float) (acc : float) :
  no_nan xs → PrimFloat.is_nan acc = false →
  let m := fold_left np_maximum xs acc in
  PrimFloat.is_nan m = false ∧ m ∈ acc :: xs ∧
  ∀ v, v ∈ acc :: xs → (v <=? m)%float = true.
Proof.
  revert acc. induction xs as [|x xs IH]; intros acc Hxs Hacc; cbv zeta; simpl.
  - split_and!; [done | by left |]. intros v Hv.
    apply list_elem_of_singleton in Hv as ->. by apply float_leb_refl.
  - apply Forall_cons in Hxs as [Hx Hxs].
    destruct (np_maximum_spec acc x Hacc Hx) as (Hn & Hor & Ha & Hb).
    destruct (IH _ Hxs Hn) as (Hm & Hin & Hle). split_and!; [done | |].
    + apply elem_of_cons in Hin as [Hin|Hin].
      * rewrite Hin. destruct Hor as [-> | ->]; [by left | right; by left].
      * right. by right.
    + intros v Hv.
      assert (Hvn : PrimFloat.is_nan v = false).
      { apply elem_of_cons in Hv as [Hv|Hv]; [by rewrite Hv|].
        apply elem_of_cons in Hv as [Hv|Hv]; [by rewrite Hv|].
        unfold no_nan in Hxs. rewrite Forall_forall in Hxs. by apply Hxs. }
      assert (Hmacc : (np_maximum acc x <=? fold_left np_maximum xs (np_maximum acc x))%float
                      = true) by (apply Hle; by left).
      apply elem_of_cons in Hv as [Hv|Hv];
        [rewrite Hv; by apply (float_leb_trans _ (np_maximum acc x))|].
      apply elem_of_cons in Hv as [Hv|Hv];
        [rewrite Hv; by apply (float_leb_trans _ (np_maximum acc x))|].
      apply Hle. by right.
Qed.

Lemma np_min_max_encloses (a : list float) (lo hi : float) :
  no_nan a → np_min a = Ok lo → np_max a = Ok hi → encloses lo hi a.
Proof.
  intros Ha Hlo Hhi. destruct a as [|x xs]; [done|].
  apply Forall_cons in Ha as [Hx Hxs]. simpl in Hlo, Hhi.
  injection Hlo as <-. injection Hhi as <-.
  destruct (fold_minimum_spec xs x Hxs Hx) as (_ & Hin & Hle).
  destruct (fold_maximum_spec xs x Hxs Hx) as (_ & Hin' & Hge).
  split_and!; [done | done |]. intros v Hv. split; [by apply Hle | by apply Hge].
Qed.

(** The outcome of [get_bounds], read off the two coordinates. *)
Lemma get_bounds_cases (obj : DataArray) (lat_var lon_var : string) :
  match da_coords obj !! lat_var, da_coords obj !! lon_var with
  | None, _ => get_bounds obj lat_var lon_var = Raise KeyError
  | Some lat, lon =>
      match co_values lat, lon with
      | [], _ => get_bounds obj lat_var lon_var = Raise ValueError
      | _ :: _, None => get_bounds obj lat_var lon_var = Raise KeyError
      | _ :: _, Some lon =>
          match co_values lon with
          | [] => get_bounds obj lat_var lon_var = Raise ValueError
          | _ :: _ =>
              ∃ lat_min lat_max lon_min lon_max,
                np_min (co_values lat) = Ok lat_min ∧ np_max (co_values lat) = Ok lat_max ∧
                np_min (co_values lon) = Ok lon_min ∧ np_max (co_values lon) = Ok lon_max ∧
                get_bounds obj lat_var lon_var
                = Ok {| b_lat := (lat_min, lat_max); b_lon := (lon_min, lon_max) |}
          end
      end
  end.
Proof.
  unfold get_bounds, da_getitem.
  destruct (da_coords obj !! lat_var) as [[dlat [|x xs]]|]; [reflexivity | | reflexivity].
  destruct (da_coords obj !! lon_var) as [[dlon [|y ys]]|]; [reflexivity | | reflexivity].
  eexists _, _, _, _. split_and!; reflexivity.
Qed.

(** ** More on the harmonizer *)

Lemma with_bounds_harmonized (a : DataArray) (lon lat : Coord) :
  da_coords a !! "lon" = Some lon →
  da_coords a !! "lat" = Some lat →
  harmonized (with_bounds a (axis_boundaries (co_values lon)) (axis_boundaries (co_values lat))).
Proof.
  intros Hlon Hlat. exists lon, lat. unfold with_bounds. simpl.
  split_and!.
  - by rewrite !lookup_insert_ne.
  - by rewrite !lookup_insert_ne.
  - rewrite lookup_insert_ne by done. by rewrite lookup_insert_eq.
  - by rewrite lookup_insert_eq.
Qed.

(** Writing the boundary of [lon] again changes nothing of a harmonized
    object. *)
Lemma with_lon_b_harmonized (a : DataArray) (lon : Coord) :
  harmonized a →
  da_coords a !! "lon" = Some lon →
  harmonized (with_coord a "lon_b" "x_b" (axis_boundaries (co_values lon))).
Proof.
  intros (lon0 & lat0 & Hlon0 & Hlat0 & Hb & Hb') Hlon.
  assert (lon0 = lon) as -> by congruence.
  exists lon, lat0. simpl. split_and!.
  - by rewrite lookup_insert_ne.
  - by rewrite lookup_insert_ne.
  - by rewrite lookup_insert_eq.
  - by rewrite lookup_insert_ne.
Qed.

Lemma with_bounds_again (a : DataArray) (lon_b lat_b : list float) :
  with_bounds (with_bounds a lon_b lat_b) lon_b lat_b = with_bounds a lon_b lat_b.
Proof.
  unfold with_bounds, with_coord. cbn [da_class da_dims da_rows da_coords]. f_equal.
  apply map_eq. intros k.
  destruct (decide (k = "lat_b")) as [->|Hlat];
    [by repeat (rewrite lookup_insert_eq || rewrite lookup_insert_ne by done)|].
  destruct (decide (k = "lon_b")) as [->|Hlon];
    by repeat (rewrite lookup_insert_eq || rewrite lookup_insert_ne by done).
Qed.

(** The boundaries that are there do not stand in the way of writing them
    again. *)
Lemma dim_fits_again (a : DataArray) (lon_b lat_b : list float) (n_lon n_lat : nat) :
  dim_fits a "lon_b" "x_b" n_lon →
  dim_fits (with_coord a "lon_b" "x_b" lon_b) "lat_b" "y_b" n_lat →
  dim_fits (with_bounds a lon_b lat_b) "lon_b" "x_b" n_lon ∧
  dim_fits (with_bounds a lon_b lat_b) "lat_b" "y_b" n_lat.
Proof.
  intros (K1 & D1 & C1) (K2 & D2 & C2). split.
  - split_and!; [done | done |]. intros k c Hk Hne Hdim.
    unfold with_bounds, with_coord in Hk. cbn [da_coords] in Hk.
    destruct (decide (k = "lat_b")) as [->|Hlat].
    + rewrite lookup_insert_eq in Hk. injection Hk as <-. done.
    + rewrite lookup_insert_ne in Hk by done. rewrite lookup_insert_ne in Hk by done.
      by eapply C1.
  - split_and!; [done | done |]. intros k c Hk Hne Hdim.
    unfold with_bounds, with_coord in Hk. cbn [da_coords] in Hk.
    rewrite lookup_insert_ne in Hk by done. by eapply C2.
Qed.

Lemma make_source_grid_twice (obj r : PyVal) (s s1 : State) :
  _make_source_grid obj s = (Ok r, s1) → _make_source_grid obj s1 = (Ok r, s1).
Proof.
  intros H.
  destruct (make_source_grid_cases obj s) as [[e He] | (l & a & lon & lat & -> & Hl & Hlon
    & Hlat & Nlon & Nlat & Hfit & [[_ Hrun] | [Hfit' Hrun]])]; [congruence | congruence |].
  rewrite Hrun in H. injection H as <- <-.
  assert (Hlt : l < length (st_heap s)) by by eapply lookup_lt_Some.
  destruct (dim_fits_again a (axis_boundaries (co_values lon))
              (axis_boundaries (co_values lat)) _ _ Hfit Hfit') as [F1 F2].
  rewrite (make_source_grid_ok _ l
             (with_bounds a (axis_boundaries (co_values lon)) (axis_boundaries (co_values lat)))
             lon lat); [| by apply list_lookup_insert_eq | | | done | done | done | done].
  - unfold set_heap. simpl. by rewrite list_insert_insert_eq, with_bounds_again.
  - unfold with_bounds. simpl. by rewrite !lookup_insert_ne.
  - unfold with_bounds. simpl. by rewrite !lookup_insert_ne.
Qed.

(** ** What the harmonizer does to the other objects *)

Lemma make_source_grid_other (obj : PyVal) (s : State) (l : loc) :
  obj ≠ VArr l → st_heap (_make_source_grid obj s).2 !! l = st_heap s !! l.
Proof.
  intros Hne.
  destruct (make_source_grid_cases obj s) as [[e He] | (l' & a & lon & lat & -> & _ & _ & _
    & _ & _ & _ & [[_ Hrun] | [_ Hrun]])]; [by rewrite He | |];
    rewrite Hrun; simpl; apply list_lookup_insert_ne; congruence.
Qed.

Lemma make_source_grid_keeps_harmonized (obj : PyVal) (s : State) (l : loc) :
  harmonized_at l s → harmonized_at l (_make_source_grid obj s).2.
Proof.
  intros (a & Hl & Ha).
  destruct (make_source_grid_cases obj s) as [[e He] | (l' & a' & lon & lat & -> & Hl' & Hlon
    & Hlat & _ & _ & _ & [[_ Hrun] | [_ Hrun]])]; [rewrite He; by exists a | |];
    rewrite Hrun; unfold harmonized_at; simpl; (destruct (decide (l' = l)) as [->|Hne];
      [|exists a; by rewrite list_lookup_insert_ne]).
  - eexists. split; [apply list_lookup_insert_eq; by eapply lookup_lt_Some|].
    assert (a' = a) as -> by congruence. by apply with_lon_b_harmonized.
  - eexists. split; [apply list_lookup_insert_eq; by eapply lookup_lt_Some|].
    by apply with_bounds_harmonized.
Qed.

Lemma make_source_grid_harmonizes (l : loc) (r : PyVal) (s s1 : State) :
  _make_source_grid (VArr l) s = (Ok r, s1) → harmonized_at l s1.
Proof.
  intros H.
  destruct (make_source_grid_cases (VArr l) s) as [[e He] | (l' & a' & lon & lat & [= <-] & Hl'
    & Hlon & Hlat & _ & _ & _ & [[_ Hrun] | [_ Hrun]])]; [congruence | congruence |].
  rewrite Hrun in H. injection H as <- <-. simpl.
  eexists. split; [apply list_lookup_insert_eq; by eapply lookup_lt_Some|].
  by apply with_bounds_harmonized.
Qed.

Section MorePipelineFacts.

Context {lib : Numerics}.
Context {Regridder : Type}.
Context (xe_Regridder : list DataArray → PyVal → Dest → PyVal → result Regridder).
Context (regridder_call : Regridder → list DataArray → PyVal → result DataArray).
Context (grid_2d : float → float → float → float → float → float → result Grid).
Context (qm : DataArray → DataArray → DataArray → string → result DataArray).

Abbreviation step := (regrid_step Regridder xe_Regridder regridder_call).
Abbreviation batch := (regrid_batch Regridder xe_Regridder regridder_call).
Abbreviation regrid_to := (_regrid_to Regridder xe_Regridder regridder_call).
Abbreviation call := (call_regrid_to Regridder xe_Regridder regridder_call).
Abbreviation run := (bcsd Regridder xe_Regridder regridder_call grid_2d qm).

(** What one turn of the loop does to the store, whatever its outcome: the
    harmonizer runs, then at most one operator is logged and at most one
    object is appended. *)
Lemma regrid_step_effect dest method obj (s : State) :
  let s1 := (_make_source_grid obj s).2 in
  let s' := (step dest method obj s).2 in
  let b := {| bu_source := obj; bu_dest := dest; bu_method := method |} in
  (s' = s1 ∧ ∃ e, (step dest method obj s).1 = Raise e) ∨
  (s' = {| st_heap := st_heap s1; st_built := st_built s ++ [b] |} ∧
   ∃ e, (step dest method obj s).1 = Raise e) ∨
  (∃ a, s' = {| st_heap := st_heap s1 ++ [a]; st_built := st_built s ++ [b] |} ∧
        (step dest method obj s).1 = Ok (length (st_heap s))).
Proof.
  cbv zeta. pose proof (make_source_grid_built obj s) as [Hb Hlen].
  unfold regrid_step, mbind, M_bind, log_built, alloc.
  destruct (_make_source_grid obj s) as [[r|e] s1] eqn:Hh; [|left; eauto].
  assert (r = obj) as -> by by eapply make_source_grid_returns_input.
  simpl in Hb, Hlen.
  destruct (xe_Regridder (st_heap s1) obj dest method) as [rg|e]; [|left; eauto].
  cbn [st_heap st_built fst snd].
  destruct (regridder_call rg (st_heap s1) obj) as [a|e]; simpl.
  - right. right. exists a. by rewrite Hb, Hlen.
  - right. left. rewrite Hb. eauto.
Qed.

Lemma regrid_step_lookup dest method obj (s : State) (l : loc) :
  l < length (st_heap s) →
  st_heap (step dest method obj s).2 !! l = st_heap (_make_source_grid obj s).2 !! l.
Proof.
  intros Hl. pose proof (make_source_grid_built obj s) as [_ Hlen].
  destruct (regrid_step_effect dest method obj s) as [[-> _] | [[-> _] | (a & -> & _)]];
    try done.
  simpl. apply lookup_app_l. lia.
Qed.

Lemma regrid_step_length dest method obj (s : State) :
  length (st_heap s) ≤ length (st_heap (step dest method obj s).2).
Proof.
  pose proof (make_source_grid_built obj s) as [_ Hlen].
  destruct (regrid_step_effect dest method obj s) as [[-> _] | [[-> _] | (a & -> & _)]];
    simpl; rewrite ?length_app; simpl; lia.
Qed.

Lemma regrid_step_keeps_harmonized dest method obj (s : State) (l : loc) :
  harmonized_at l s → harmonized_at l (step dest method obj s).2.
Proof.
  intros H. pose proof (make_source_grid_keeps_harmonized obj s l H) as (a & Ha & Hh).
  destruct H as (a0 & Hl0 & _).
  exists a. split; [|done]. rewrite regrid_step_lookup; [done | by eapply lookup_lt_Some].
Qed.

Lemma regrid_batch_keeps_harmonized dest method objs (s : State) (l : loc) :
  harmonized_at l s → harmonized_at l (batch dest method objs s).2.
Proof.
  revert s. induction objs as [|obj rest IH]; intros s H; [done|].
  simpl. unfold mbind, M_bind.
  pose proof (regrid_step_keeps_harmonized dest method obj s l H) as H1.
  destruct (step dest method obj s) as [[x|e] s1]; [|done].
  specialize (IH s1 H1). by destruct (batch dest method rest s1) as [[outs|e] s2].
Qed.

Lemma regrid_batch_harmonizes dest method objs (s s' : State) outs (l : loc) :
  batch dest method objs s = (Ok outs, s') → VArr l ∈ objs → harmonized_at l s'.
Proof.
  revert s outs. induction objs as [|obj rest IH]; intros s outs H Hin.
  - by apply not_elem_of_nil in Hin.
  - simpl in H. apply bind_inv in H as (x & s1 & Hstep & H).
    apply bind_inv in H as (ls & s2 & Hrest & H). injection H as <- <-.
    apply elem_of_cons in Hin as [<-|Hin]; [|by eapply IH].
    pose proof (regrid_batch_keeps_harmonized dest method rest s1 l) as Hk.
    rewrite Hrest in Hk. apply Hk.
    apply regrid_step_inv in Hstep as (sh & r & a & Hh & _ & _ & _ & ->).
    apply make_source_grid_harmonizes in Hh as (b & Hb & Hhb).
    exists b. split; [|done]. simpl. rewrite lookup_app_l; [done | by eapply lookup_lt_Some].
Qed.

(** Objects that are not among the sources stay as they are. *)
Lemma regrid_batch_frame dest method objs (s : State) (l : loc) :
  VArr l ∉ objs → l < length (st_heap s) →
  st_heap (batch dest method objs s).2 !! l = st_heap s !! l.
Proof.
  revert s. induction objs as [|obj rest IH]; intros s Hnin Hl; [done|].
  apply not_elem_of_cons in Hnin as [Hne Hnin].
  simpl. unfold mbind, M_bind.
  pose proof (regrid_step_lookup dest method obj s l Hl) as H1.
  pose proof (regrid_step_length dest method obj s) as H2.
  rewrite make_source_grid_other in H1 by done.
  destruct (step dest method obj s) as [[x|e] s1]; [|done]. simpl in H1, H2.
  specialize (IH s1 Hnin ltac:(lia)).
  destruct (batch dest method rest s1) as [[outs|e] s2]; simpl in *; congruence.
Qed.

(** Operators are built for a prefix of the sources, in their order. *)
Lemma regrid_batch_built dest method objs (s : State) :
  ∃ k, k ≤ length objs ∧
       st_built (batch dest method objs s).2
       = st_built s ++ ((fun obj => {| bu_source := obj; bu_dest := dest;
                                       bu_method := method |}) <$> take k objs) ∧
       length (st_heap (batch dest method objs s).2) ≤ length (st_heap s) + k.
Proof.
  revert s. induction objs as [|obj rest IH]; intros s.
  - exists 0. simpl. rewrite app_nil_r. split_and!; [done | done | lia].
  - pose proof (make_source_grid_built obj s) as [Hb Hlen].
    assert (Ht : ∀ k, take (S k) (obj :: rest) = obj :: take k rest) by done.
    simpl. unfold mbind, M_bind.
    destruct (regrid_step_effect dest method obj s)
      as [[Hs [e He]] | [[Hs [e He]] | (a & Hs & Hok)]];
      destruct (step dest method obj s) as [[x|e'] s1]; simpl in Hs; try done; subst s1.
    + exists 0. rewrite take_0, fmap_nil, app_nil_r. simpl. split_and!; [lia | done | lia].
    + exists 1. rewrite Ht, take_0. simpl. split_and!; [lia | done | lia].
    + destruct (IH {| st_heap := st_heap (_make_source_grid obj s).2 ++ [a];
                      st_built := st_built s ++ [{| bu_source := obj; bu_dest := dest;
                                                    bu_method := method |}] |})
        as (k & Hk & Hbk & Hh).
      exists (S k). rewrite Ht, fmap_cons. simpl in Hbk, Hh.
      rewrite length_app in Hh. simpl in Hh.
      destruct (batch dest method rest _) as [[outs|e] s2]; simpl in *;
        (split_and!; [lia | by rewrite Hbk, <- app_assoc | lia]).
Qed.

End MorePipelineFacts.

Section CallFacts.

Context {lib : Numerics}.
Context {Regridder : Type}.
Context (xe_Regridder : list DataArray → PyVal → Dest → PyVal → result Regridder).
Context (regridder_call : Regridder → list DataArray → PyVal → result DataArray).
Context (grid_2d : float → float → float → float → float → float → result Grid).
Context (qm : DataArray → DataArray → DataArray → string → result DataArray).

Abbreviation batch := (regrid_batch Regridder xe_Regridder regridder_call).
Abbreviation regrid_to := (_regrid_to Regridder xe_Regridder regridder_call).
Abbreviation call := (call_regrid_to Regridder xe_Regridder regridder_call).
Abbreviation run := (bcsd Regridder xe_Regridder regridder_call grid_2d qm).

Lemma call_with_keywords dest args kwargs (s : State) :
  kwargs ≠ [] →
  call dest args kwargs s = (Raise TypeError, s) ∨
  (args = [] ∧ call dest args kwargs s = (Ok [], s)).
Proof.
  intros Hkw. unfold call_regrid_to, bind_regrid_to, mbind, M_bind, lift.
  destruct (existsb _ kwargs); [by left|].
  destruct args as [|m objs], kwargs as [|[k v] kwargs]; try done; [right | left]; done.
Qed.

(** The first call of [bcsd], whatever its outcome: operators are built for
    a prefix of [da_train, da_predict], each with [da_obs] as its method, and
    no other object is touched. *)
Lemma first_call_effect dest (da_obs da_train da_predict : loc) (s : State) :
  let s' := (call dest [VArr da_obs; VArr da_train; VArr da_predict] [] s).2 in
  (∃ k, k ≤ 2 ∧
        st_built s'
        = st_built s ++ take k [{| bu_source := VArr da_train; bu_dest := dest;
                                   bu_method := VArr da_obs |};
                                {| bu_source := VArr da_predict; bu_dest := dest;
                                   bu_method := VArr da_obs |}]) ∧
  (∀ l, l ≠ da_train → l ≠ da_predict → l < length (st_heap s) →
        st_heap s' !! l = st_heap s !! l).
Proof.
  cbv zeta. unfold call_regrid_to, mbind, M_bind, lift. simpl.
  rewrite regrid_to_batch. split.
  - destruct (regrid_batch_built xe_Regridder regridder_call dest (VArr da_obs)
                [VArr da_train; VArr da_predict] s) as (k & Hk & Hb & _).
    exists k. split; [done|]. rewrite Hb. f_equal.
    destruct k as [|[|[|k]]]; simpl in Hk; try lia; reflexivity.
  - intros l H1 H2 Hl. apply regrid_batch_frame; [|done].
    intros Hin. apply elem_of_cons in Hin as [[= ->]|Hin]; [done|].
    apply elem_of_cons in Hin as [[= ->]|Hin]; [done|]. by apply not_elem_of_nil in Hin.
Qed.

Lemma bcsd_stops_at_bounds (da_obs da_train da_predict : loc) (var : string)
    (s : State) (a : DataArray) (e : exn) :
  st_heap s !! da_obs = Some a →
  get_bounds a "lat" "lon" = Raise e →
  run da_obs da_train da_predict var s = (Raise e, s).
Proof.
  intros Hl Hb. unfold bcsd, mbind, M_bind at 1 2, load, lift. by rewrite Hl, Hb.
Qed.

Lemma bcsd_after_grid (da_obs da_train da_predict : loc) (var : string) (s : State)
    (a : DataArray) (bounds : Bounds) (g : Grid) :
  st_heap s !! da_obs = Some a →
  get_bounds a "lat" "lon" = Ok bounds →
  grid_2d (b_lon bounds).1 (b_lon bounds).2 1%float
          (b_lat bounds).1 (b_lat bounds).2 1%float = Ok g →
  (run da_obs da_train da_predict var s).2
  = (call (DestGrid g) [VArr da_obs; VArr da_train; VArr da_predict] [] s).2.
Proof.
  intros Hl Hbd Hg. unfold bcsd, mbind, M_bind at 1 2 3 4 5, lift, load.
  rewrite Hl, Hbd, Hg.
  destruct (call _ _ _ s) as [[out|e] s1] eqn:Hcall; [|reflexivity].
  apply first_call_two_outputs in Hcall.
  by destruct out as [|x [|y [|z out]]].
Qed.

(** The state [bcsd] ends in is the one its first call of [_regrid_to]
    leaves, or the initial one. *)
Lemma bcsd_final_state (da_obs da_train da_predict : loc) (var : string) (s : State) :
  (run da_obs da_train da_predict var s).2 = s ∨
  ∃ g, (run da_obs da_train da_predict var s).2
       = (call (DestGrid g) [VArr da_obs; VArr da_train; VArr da_predict] [] s).2.
Proof.
  destruct (st_heap s !! da_obs) as [a|] eqn:Hl.
  - destruct (get_bounds a "lat" "lon") as [bounds|e] eqn:Hbd.
    + destruct (grid_2d (b_lon bounds).1 (b_lon bounds).2 1%float
                        (b_lat bounds).1 (b_lat bounds).2 1%float) as [g|e] eqn:Hg.
      * right. exists g. by eapply bcsd_after_grid.
      * left. unfold bcsd, mbind, M_bind at 1 2 3, lift, load. by rewrite Hl, Hbd, Hg.
    + left. by erewrite bcsd_stops_at_bounds.
  - left. unfold bcsd, mbind, M_bind at 1, load. by rewrite Hl.
Qed.

(** What a run of [bcsd] comes to: it stops at the bounds, at the grid, in
    its first call of [_regrid_to], or at the unpacking of what that call
    returns.  Nothing of this depends on the variable class, on the quantile
    mapping or on the reductions. *)
Lemma bcsd_outcome (da_obs da_train da_predict : loc) (var : string) (s : State) :
  run da_obs da_train da_predict var s
  = match st_heap s !! da_obs with
    | None => (Raise (LibraryError "ReferenceError"), s)
    | Some obs =>
        match get_bounds obs "lat" "lon" with
        | Raise e => (Raise e, s)
        | Ok bounds =>
            match grid_2d (b_lon bounds).1 (b_lon bounds).2 1%float
                          (b_lat bounds).1 (b_lat bounds).2 1%float with
            | Raise e => (Raise e, s)
            | Ok g =>
                match call (DestGrid g) [VArr da_obs; VArr da_train; VArr da_predict] [] s with
                | (Ok _, s') => (Raise ValueError, s')
                | (Raise e, s') => (Raise e, s')
                end
            end
        end
    end.
Proof.
  unfold bcsd, mbind, M_bind at 1 2 3 4 5, lift, load.
  destruct (st_heap s !! da_obs) as [obs|]; [|done].
  destruct (get_bounds obs "lat" "lon") as [bounds|]; [|done].
  destruct (grid_2d _ _ _ _ _ _) as [g|]; [|done].
  destruct (call _ _ _ s) as [[out|e] s1] eqn:Hcall; [|done].
  apply first_call_two_outputs in Hcall.
  by destruct out as [|x [|y [|z out]]].
Qed.

End CallFacts.

(** ** The test fixtures of [skdownscale/test/__init__.py] *)

(** *** The calendar *)

Lemma next_day_ordinal (t : Timestamp) :
  (month_ordinal (next_day t) = month_ordinal t ∨
   month_ordinal (next_day t) = month_ordinal t + 1)%Z.
Proof.
  unfold next_day, month_ordinal. destruct (_ <? _)%Z; simpl; [by left|]. right.
  destruct (ts_month t); simpl; lia.
Qed.

Lemma days_from_cadence (t : Timestamp) (n : nat) : regular_cadence (days_from t n) = true.
Proof.
  revert t. induction n as [|n IH]; intros t; [done|].
  simpl. destruct n as [|n]; [done|]. specialize (IH (next_day t)). simpl in IH |- *.
  rewrite IH, andb_true_r. apply andb_true_intro.
  destruct (next_day_ordinal t) as [-> | ->]; split; apply Z.leb_le; lia.
Qed.

Lemma days_from_length (t : Timestamp) (n : nat) : length (days_from t n) = n.
Proof. revert t. induction n as [|n IH]; intros t; simpl; [done | by rewrite IH]. Qed.

Lemma days_from_lookup (t : Timestamp) (n i : nat) :
  i < n → days_from t n !! i = Some (Nat.iter i next_day t).
Proof.
  revert t i. induction n as [|n IH]; intros t i Hi; [lia|].
  destruct i as [|i]; [done|]. simpl. rewrite IH by lia. f_equal.
  clear. induction i as [|i IH]; [done|]. simpl. by rewrite IH.
Qed.

Lemma iter_next_day_ordinal (t : Timestamp) (i k : nat) :
  (month_ordinal (Nat.iter i next_day t) ≤ month_ordinal (Nat.iter (i + k) next_day t))%Z.
Proof.
  induction k as [|k IH]; [by rewrite Nat.add_0_r|].
  rewrite Nat.add_succ_r. simpl.
  destruct (next_day_ordinal (Nat.iter (i + k) next_day t)); lia.
Qed.

(** The daily series from 1979-01-01 reaches December with its 335th day. *)
Lemma days_from_1979_spans (n : nat) :
  spans_full_year (days_from new_year_1979 n) = true ↔ 335 ≤ n.
Proof.
  unfold spans_full_year. rewrite days_from_cadence, andb_true_l.
  destruct n as [|n]; [split; [done | lia]|].
  assert (Hl : last (days_from new_year_1979 (S n))
               = Some (Nat.iter n next_day new_year_1979)).
  { rewrite last_lookup, days_from_length. apply days_from_lookup. simpl. lia. }
  change (days_from new_year_1979 (S n))
    with (new_year_1979 :: days_from (next_day new_year_1979) n) in Hl |- *.
  cbv beta iota. rewrite Hl, Z.leb_le.
  assert (H334 : month_ordinal (Nat.iter 334 next_day new_year_1979)
                 = (month_ordinal new_year_1979 + 11)%Z) by (vm_compute; reflexivity).
  assert (H333 : month_ordinal (Nat.iter 333 next_day new_year_1979)
                 = (month_ordinal new_year_1979 + 10)%Z) by (vm_compute; reflexivity).
  split.
  - intros H. destruct (decide (334 ≤ n)) as [|Hlt]; [lia|]. exfalso.
    pose proof (iter_next_day_ordinal new_year_1979 n (333 - n)) as Hm.
    replace (n + (333 - n)) with 333 in Hm by lia. lia.
  - intros H. pose proof (iter_next_day_ordinal new_year_1979 334 (n - 334)) as Hm.
    replace (334 + (n - 334)) with n in Hm by lia. lia.
Qed.

(** *** The shape of the fixtures *)

Lemma date_range_ok (beyond : Z → result (list Timestamp)) (periods : Z) :
  (0 ≤ periods ≤ 103465)%Z →
  date_range beyond periods = Ok (days_from new_year_1979 (Z.to_nat periods)).
Proof.
  intros H. unfold date_range.
  destruct (Z.leb_spec 0 periods); [|lia]. destruct (Z.leb_spec periods 103465); [|lia]. done.
Qed.

Lemma np_random_random_ok (draw : nat → nat → nat → float) (k : nat) (rows : Z)
    (shape : list Z) :
  Forall (fun d => (0 ≤ d)%Z) (rows :: shape) →
  np_random_random draw k rows shape
  = Ok ((fun i => draw k i <$> seq 0 (Z.to_nat (fold_right Z.mul 1%Z shape)))
          <$> seq 0 (Z.to_nat rows)).
Proof.
  intros H. unfold np_random_random. destruct (existsb _ _) eqn:E; [|done].
  apply existsb_exists in E as (d & Hd & Hneg). apply Z.ltb_lt in Hneg.
  rewrite Forall_forall in H. apply list_elem_of_In, H in Hd. lia.
Qed.

Lemma np_random_random_negative (draw : nat → nat → nat → float) (k : nat) (rows : Z)
    (shape : list Z) :
  Exists (fun d => (d < 0)%Z) (rows :: shape) →
  np_random_random draw k rows shape = Raise ValueError.
Proof.
  intros H. unfold np_random_random.
  apply Exists_exists in H as (d & Hd & Hneg).
  assert (existsb (fun d => (d <? 0)%Z) (rows :: shape) = true) as ->; [|done].
  apply existsb_exists. exists d. split; [by apply list_elem_of_In | by apply Z.ltb_lt].
Qed.

Lemma fixture_array_variable (draw : nat → nat → nat → float) (k : nat)
    (dims : list (string * nat)) (n cells : nat) :
  fixture_variable n cells (fixture_array draw k dims n cells).
Proof.
  unfold fixture_variable, da_time, fixture_array, xr_DataArray. simpl.
  split_and!; [| |done].
  - apply fst_zip. by rewrite days_from_length, length_fmap, length_seq.
  - apply Forall_forall. intros r Hr.
    apply list_elem_of_fmap_2 with (f := snd) in Hr.
    rewrite snd_zip in Hr by by rewrite days_from_length, length_fmap, length_seq.
    apply list_elem_of_fmap in Hr as (i & -> & _). by rewrite length_fmap, length_seq.
Qed.

(** What both fixtures share: the data set built over a shape of cells. *)
Lemma fixture_ok (draw : nat → nat → nat → float) (beyond : Z → result (list Timestamp))
    (dims : list (string * nat)) (shape : list Z) (n_times n_vars : Z) :
  (0 ≤ n_times ≤ 103465)%Z →
  Forall (fun d => (0 ≤ d)%Z) shape →
  (times ← date_range beyond n_times;
   map_result (fun kv : nat * string =>
                 values ← np_random_random draw kv.1 n_times shape;
                 Ok (kv.2, xr_DataArray dims times values))
              (imap pair (slice_until ascii_lowercase n_vars)))
  = Ok (imap (fun k name =>
                (name, fixture_array draw k dims (Z.to_nat n_times)
                         (Z.to_nat (fold_right Z.mul 1%Z shape))))
             (slice_until ascii_lowercase n_vars)).
Proof.
  intros Hn Hshape. rewrite date_range_ok, result_bind_Ok by done.
  rewrite (map_result_fmap _
             (fun kv : nat * string =>
                (kv.2, fixture_array draw kv.1 dims (Z.to_nat n_times)
                         (Z.to_nat (fold_right Z.mul 1%Z shape))))).
  - rewrite fmap_imap. reflexivity.
  - apply Forall_forall. intros kv _. simpl.
    rewrite np_random_random_ok by (constructor; [lia | done]). reflexivity.
Qed.

Lemma fixture_names {B} (f : nat → string → B) (names : list string) :
  (imap (fun k name => (name, f k name)) names).*1 = names.
Proof.
  apply list_eq. intros i. rewrite list_lookup_fmap, list_lookup_imap.
  by destruct (names !! i).
Qed.

Lemma slice_until_length {A} (l : list A) (n : Z) :
  length (slice_until l n)
  = if (0 <=? n)%Z then Nat.min (Z.to_nat n) (length l)
    else length l - Z.to_nat (- n).
Proof.
  unfold slice_until. destruct (0 <=? n)%Z; rewrite length_take; lia.
Qed.

Lemma before_december (i : nat) :
  i < 334 → ts_month (Nat.iter i next_day new_year_1979) ≠ Dec.
Proof.
  intros Hi Hdec.
  pose proof (iter_next_day_ordinal new_year_1979 0 i) as Hlo.
  pose proof (iter_next_day_ordinal new_year_1979 i (333 - i)) as Hhi.
  replace (i + (333 - i)) with 333 in Hhi by lia.
  change (Nat.iter 0 next_day new_year_1979) with new_year_1979 in Hlo.
  change (0 + i) with i in Hlo.
  assert (H333 : month_ordinal (Nat.iter 333 next_day new_year_1979) = 23758%Z)
    by (vm_compute; reflexivity).
  assert (H0 : month_ordinal new_year_1979 = 23748%Z) by reflexivity.
  pose proof (month_ordinal_mod (Nat.iter i next_day new_year_1979)) as Hmod.
  rewrite Hdec in Hmod. change (month_number Dec - 1)%Z with 11%Z in Hmod.
  rewrite H333 in Hhi. rewrite H0 in Hlo.
  set (o := month_ordinal (Nat.iter i next_day new_year_1979)) in *.
  clearbody o. Z.div_mod_to_equations. lia.
Qed.

Lemma days_from_months (n : nat) (rows : list (Timestamp * list float)) :
  rows.*1 = days_from new_year_1979 n →
  months_present rows = all_months ↔ 335 ≤ n.
Proof.
  intros Ht. split.
  - intros Hall. destruct (decide (335 ≤ n)) as [|Hlt]; [done|]. exfalso.
    assert (Hdec : Dec ∈ months_present rows) by (rewrite Hall; apply all_months_complete).
    apply months_present_spec in Hdec as (r & Hr & Hm).
    apply list_elem_of_fmap_2 with (f := fst) in Hr. rewrite Ht in Hr.
    apply list_elem_of_lookup in Hr as (i & Hi).
    pose proof (lookup_lt_Some _ _ _ Hi) as Hlen. rewrite days_from_length in Hlen.
    rewrite days_from_lookup in Hi by done. injection Hi as Hi.
    apply (before_december i); [lia|]. by rewrite Hi.
  - intros Hn. apply months_present_full. rewrite Ht. by apply days_from_1979_spans.
Qed.

(** * The claims *)

(** ** The Grid Harmonizer *)

(** C4, as the code has it.  On an object that takes coordinates on the
    dimensions [x_b] and [y_b] and whose [lon] and [lat] axes have at least
    two cell centres each, the harmonizer succeeds and attaches, for either
    axis, a boundary array of [N+1] entries: entry [i] is centre [i] minus
    half the step, entry [N] is the last centre plus half the step, the step
    being the difference of the first two centres of that axis. *)
Theorem harmonizer_cell_boundaries (s : State) (l : loc) (a : DataArray) (lon lat : Coord) :
  st_heap s !! l = Some a →
  da_coords a !! "lon" = Some lon →
  da_coords a !! "lat" = Some lat →
  2 ≤ length (co_values lon) →
  2 ≤ length (co_values lat) →
  dim_fits a "lon_b" "x_b" (S (length (co_values lon))) →
  dim_fits a "lat_b" "y_b" (S (length (co_values lat))) →
  ∃ lon_b lat_b a',
    _make_source_grid (VArr l) s = (Ok (VArr l), set_heap s (<[l := a']> (st_heap s))) ∧
    da_coords a' !! "lon_b" = Some {| co_dim := "x_b"; co_values := lon_b |} ∧
    da_coords a' !! "lat_b" = Some {| co_dim := "y_b"; co_values := lat_b |} ∧
    cell_boundaries (co_values lon) lon_b ∧
    cell_boundaries (co_values lat) lat_b.
Proof.
  intros Hl Hlon Hlat Nlon Nlat Flon Flat.
  assert (Elon : co_values lon ≠ []) by (destruct (co_values lon); [simpl in Nlon; lia | done]).
  assert (Elat : co_values lat ≠ []) by (destruct (co_values lat); [simpl in Nlat; lia | done]).
  eexists _, _, _. split_and!.
  - by eapply make_source_grid_ok.
  - unfold with_bounds. simpl. rewrite lookup_insert_ne by done. by rewrite lookup_insert_eq.
  - unfold with_bounds. simpl. by rewrite lookup_insert_eq.
  - by apply axis_boundaries_boundaries.
  - by apply axis_boundaries_boundaries.
Qed.

Lemma harmonizer_cell_boundaries_witness :
  ∃ lon_b lat_b a',
    _make_source_grid (VArr 0) Demo.state0
    = (Ok (VArr 0), set_heap Demo.state0 (<[0 := a']> (st_heap Demo.state0))) ∧
    da_coords a' !! "lon_b" = Some {| co_dim := "x_b"; co_values := lon_b |} ∧
    da_coords a' !! "lat_b" = Some {| co_dim := "y_b"; co_values := lat_b |} ∧
    cell_boundaries [20; 21]%float lon_b ∧
    cell_boundaries [10; 11]%float lat_b.
Proof.
  apply (harmonizer_cell_boundaries Demo.state0 0 (Demo.series 1)
           {| co_dim := "x"; co_values := [20; 21]%float |}
           {| co_dim := "y"; co_values := [10; 11]%float |});
    [reflexivity | reflexivity | reflexivity | simpl; lia | simpl; lia
    | apply (bool_decide_unpack _); vm_compute; exact I
    | apply (bool_decide_unpack _); vm_compute; exact I].
Defined.

(** C4 as stated fails: the axes are not treated one by one.  With two
    longitudes and a single latitude the harmonizer raises [IndexError] and
    derives no boundary for the longitudes either; and a [DataArray] with
    two centres on both axes makes it raise [ValueError], its array having
    no dimension [x_b]. *)
Lemma harmonizer_treats_no_axis_alone :
  _make_source_grid (VArr 0) {| st_heap := [Demo.row 1%float]; st_built := [] |}
  = (Raise IndexError, {| st_heap := [Demo.row 1%float]; st_built := [] |}) ∧
  _make_source_grid (VArr 0) {| st_heap := [Demo.array 1%float]; st_built := [] |}
  = (Raise ValueError, {| st_heap := [Demo.array 1%float]; st_built := [] |}).
Proof. split; vm_compute; reflexivity. Qed.




(** ** The Regrid Stage *)

Section Stages.

Context {lib : Numerics}.
Context {Regridder : Type}.
Context (xe_Regridder : list DataArray → PyVal → Dest → PyVal → result Regridder).
Context (regridder_call : Regridder → list DataArray → PyVal → result DataArray).
Context (grid_2d : float → float → float → float → float → float → result Grid).
Context (qm : DataArray → DataArray → DataArray → string → result DataArray).

Abbreviation step := (regrid_step Regridder xe_Regridder regridder_call).
Abbreviation batch := (regrid_batch Regridder xe_Regridder regridder_call).
Abbreviation regrid_to := (_regrid_to Regridder xe_Regridder regridder_call).
Abbreviation call := (call_regrid_to Regridder xe_Regridder regridder_call).
Abbreviation run := (bcsd Regridder xe_Regridder regridder_call grid_2d qm).


(** C5, as the code has it.  The harmonizer writes into the object it is
    given: when it returns, it returns that same object, which now carries
    [lon_b] and [lat_b], the boundaries of its axes.  The Regrid Stage
    harmonizes each of its sources in the same way and returns its outputs
    as new objects.  Apart from these two coordinates every object of the
    store keeps its class, its dimensions, its time axis, its values and its
    coordinates through each stage and through the orchestrator, whether the
    stage returns or raises. *)
Theorem stages_preserve_all_but_bounds (s : State) :
  (∀ obj, store_preserved s (_make_source_grid obj s).2 ∧
          ∀ r s', _make_source_grid obj s = (Ok r, s') →
                  r = obj ∧
                  ∃ l a lon lat,
                    obj = VArr l ∧ st_heap s !! l = Some a ∧
                    da_coords a !! "lon" = Some lon ∧ da_coords a !! "lat" = Some lat ∧
                    st_heap s' !! l
                    = Some (with_bounds a (axis_boundaries (co_values lon))
                                          (axis_boundaries (co_values lat)))) ∧
  (∀ dest method objs,
      store_preserved s (regrid_to dest method objs s).2 ∧
      ∀ outs s', regrid_to dest method objs s = (Ok outs, s') →
                 Forall (fun l => length (st_heap s) ≤ l) outs ∧
                 ∀ l, VArr l ∈ objs → harmonized_at l s') ∧
  (∀ da_obs da_train da_predict var,
      store_preserved s (run da_obs da_train da_predict var s).2).
Proof.
  split_and!.
  - intros obj. split; [apply make_source_grid_preserved|].
    intros r s' Hrun. split; [by eapply make_source_grid_returns_input|].
    destruct (make_source_grid_cases obj s) as [[e He] | (l & a & lon & lat & -> & Hl & Hlon
      & Hlat & _ & _ & _ & [[_ He] | [_ He]])]; [congruence | congruence |].
    rewrite He in Hrun. injection Hrun as <- <-.
    exists l, a, lon, lat. split_and!; [done..|].
    simpl. apply list_lookup_insert_eq. by eapply lookup_lt_Some.
  - intros dest method objs. rewrite regrid_to_batch.
    split; [apply regrid_batch_preserved|].
    intros outs s' H. split.
    + apply regrid_batch_ok in H as (-> & _).
      apply Forall_forall. intros l Hl. apply elem_of_seq in Hl. lia.
    + intros l Hl. by eapply regrid_batch_harmonizes.
  - intros. apply bcsd_preserved.
Qed.

(** ** The orchestrator *)

(** C1, on the code.  [bcsd] never returns: whatever the inputs and the
    collaborators do, the run ends in an exception.  Its first call of
    [_regrid_to] hands over [da_obs] in the place of [method], so at most
    two series come back where three are unpacked; and the call that
    should regrid the anomalies back (step 5) passes [method] twice. *)
Theorem bcsd_never_returns (da_obs da_train da_predict : loc) (var : string) (s : State) :
  (∃ e, (run da_obs da_train da_predict var s).1 = Raise e) ∧
  (∀ dest a b c s1 out s2,
      call dest [a; b; c] [] s1 = (Ok out, s2) → unpack3 out = Raise ValueError) ∧
  (∀ anoms s1,
      call (DestArr da_obs) [VArr anoms] [("method", VStr "bilinear")] s1
      = (Raise TypeError, s1)).
Proof.
  split_and!.
  - apply bcsd_raises.
  - intros dest a b c s1 out s2 H. apply first_call_two_outputs in H.
    by destruct out as [|x [|y [|z out]]].
  - intros. apply second_call_raises.
Qed.

(** C2, as the code has it.  The orchestrator never checks the variable
    class: every class other than ["pr"], listed in the docstring or not,
    takes the path of the temperature-like variables, with the outcome it
    has for ["tmin"]. *)
Theorem unrecognized_class_takes_temperature_path (var : string) :
  var ≠ "pr" →
  (∀ o t p, analysis_anoms qm var o t p = analysis_anoms qm "tmin" o t p) ∧
  (∀ o t p clim, groupby_month_mean t = Ok clim →
                 analysis_anoms qm var o t p = temperature_anoms qm o t p) ∧
  (∀ da_obs da_train da_predict s,
      run da_obs da_train da_predict var s = run da_obs da_train da_predict "tmin" s).
Proof.
  intros Hvar. split_and!.
  - intros o t p. unfold analysis_anoms.
    by rewrite !bool_decide_eq_false_2.
  - intros o t p clim Hclim. by eapply analysis_anoms_other.
  - intros da_obs da_train da_predict s. unfold bcsd, analysis_anoms.
    by rewrite !bool_decide_eq_false_2.
Qed.

(** C6, on the code.  [bcsd] reaches neither branch.  A run stops before
    the class is looked at, so its outcome is the same for ["pr"] and for
    every other class, whatever the quantile mapping and the reductions are:
    no quantile mapping is applied and no ratio is formed. *)
Theorem bcsd_reaches_no_branch (da_obs da_train da_predict : loc) (var : string)
    (s : State) :
  (∃ e, (run da_obs da_train da_predict var s).1 = Raise e) ∧
  ∀ (lib' : Numerics) (qm' : DataArray → DataArray → DataArray → string → result DataArray)
    (var' : string),
    bcsd (lib := lib') Regridder xe_Regridder regridder_call grid_2d qm'
         da_obs da_train da_predict var' s
    = run da_obs da_train da_predict var s.
Proof.
  split; [apply bcsd_raises|].
  intros lib' qm' var'. by rewrite !bcsd_outcome.
Qed.

End Stages.

Lemma unrecognized_class_takes_temperature_path_witness :
  (∀ o t p, Demo.anoms "foo" o t p = Demo.anoms "tmin" o t p) ∧
  (∀ o t p clim, groupby_month_mean (lib := Demo.numerics) t = Ok clim →
                 Demo.anoms "foo" o t p
                 = temperature_anoms (lib := Demo.numerics) Demo.quantile_mapping_by_group
                     o t p) ∧
  (∀ da_obs da_train da_predict s,
      Demo.run da_obs da_train da_predict "foo" s
      = Demo.run da_obs da_train da_predict "tmin" s).
Proof.
  apply (unrecognized_class_takes_temperature_path (lib := Demo.numerics)
           Demo.xe_Regridder Demo.regridder_call
           Demo.grid_2d Demo.quantile_mapping_by_group "foo").
  discriminate.
Defined.

(** C1 at an input: three series on a 2 x 2 grid.  The run ends in
    [ValueError] at the unpacking of the first regrid, having built two
    operators, each with [da_obs] as its method. *)
Lemma bcsd_demo_raises_ValueError :
  (Demo.run 0 1 2 "pr" Demo.state0).1 = Raise ValueError ∧
  bu_method <$> st_built (Demo.run 0 1 2 "pr" Demo.state0).2 = [VArr 0; VArr 0] ∧
  bu_source <$> st_built (Demo.run 0 1 2 "pr" Demo.state0).2 = [VArr 1; VArr 2].
Proof. split_and!; vm_compute; reflexivity. Qed.

(** C2 as stated fails: with the class ["foo"] the run does not end in
    [VariableClassError] (it ends in the [ValueError] of every run), and the
    code that branches on the class computes anomalies for ["foo"]. *)
Lemma bcsd_foo_is_not_rejected :
  (Demo.run 0 1 2 "foo" Demo.state0).1 = Raise ValueError ∧
  ¬ raises_class (Demo.run 0 1 2 "foo" Demo.state0).1 "VariableClassError" ∧
  ∃ anoms, Demo.anoms "foo" (Demo.series 1) (Demo.series 2) (Demo.series 3) = Ok anoms.
Proof.
  split_and!.
  - vm_compute. reflexivity.
  - intros (e & He & Hname). vm_compute in He. injection He as <-. discriminate.
  - eexists. vm_compute. reflexivity.
Qed.

(** C5 as stated fails: after the harmonizer has run on an object held in
    a [Dataset], the object carries a [lon_b] coordinate it did not have;
    after the orchestrator has run, so does the training series. *)
Lemma harmonizer_writes_into_its_input :
  (∃ a, st_heap Demo.state0 !! 0 = Some a ∧ da_coords a !! "lon_b" = None) ∧
  (∃ a', st_heap (_make_source_grid (VArr 0) Demo.state0).2 !! 0 = Some a' ∧
         da_coords a' !! "lon_b"
         = Some {| co_dim := "x_b"; co_values := [19.5; 20.5; 21.5]%float |}) ∧
  (∃ a, st_heap Demo.state0 !! 1 = Some a ∧ da_coords a !! "lat_b" = None) ∧
  (∃ a', st_heap (Demo.run 0 1 2 "pr" Demo.state0).2 !! 1 = Some a' ∧
         da_coords a' !! "lat_b"
         = Some {| co_dim := "y_b"; co_values := [9.5; 10.5; 11.5]%float |}).
Proof.
  split_and!; eexists; (split; [vm_compute; reflexivity|]); vm_compute; reflexivity.
Qed.

(** C6 at an input: with ["pr"], on the three series of the 2 x 2 grid, the
    run ends in [ValueError] as it does with ["tmin"], in the same store. *)
Lemma bcsd_pr_takes_no_ratio_path :
  Demo.run 0 1 2 "pr" Demo.state0 = Demo.run 0 1 2 "tmin" Demo.state0 ∧
  (Demo.run 0 1 2 "pr" Demo.state0).1 = Raise ValueError.
Proof. split; vm_compute; reflexivity. Qed.


(** C10, on the code.  The division is never reached.  With a training
    series that is zero throughout, so that its monthly climatology is zero
    at every cell, the run for ["pr"] raises [ValueError] like every other
    run: an error is raised, and no anomaly field, with or without
    non-finite values, comes back. *)
Theorem bcsd_raises_before_the_division :
  (∃ clim, groupby_month_mean (lib := Demo.numerics) (Demo.series 0) = Ok clim ∧
           Forall (fun r : Month * list float =>
                     Forall (fun z => PrimFloat.is_zero z = true) r.2) (cl_rows clim)) ∧
  (Demo.run 0 1 2 "pr"
     {| st_heap := [Demo.series 1; Demo.series 0; Demo.series 3]%float; st_built := [] |}).1
  = Raise ValueError ∧
  (Demo.run 0 1 2 "pr"
     {| st_heap := [Demo.array 1; Demo.array 0; Demo.array 3]%float; st_built := [] |}).1
  = Raise ValueError.
Proof.
  split_and!.
  - eexists. split; [vm_compute; reflexivity|]. repeat constructor.
  - vm_compute. reflexivity.
  - vm_compute. reflexivity.
Qed.

(** ** Climatology *)



(** * Further properties of the code *)

(** ** [get_bounds] *)


(** X2.  When no coordinate value is NaN, the bounds [get_bounds] returns
    are values of the coordinates and enclose all of them: the first of a
    pair is below or equal to, the second above or equal to every value. *)
Theorem get_bounds_encloses (obj : DataArray) (lat_var lon_var : string) (b : Bounds)
    (lat lon : Coord) :
  get_bounds obj lat_var lon_var = Ok b →
  da_coords obj !! lat_var = Some lat →
  da_coords obj !! lon_var = Some lon →
  no_nan (co_values lat) →
  no_nan (co_values lon) →
  encloses (b_lat b).1 (b_lat b).2 (co_values lat) ∧
  encloses (b_lon b).1 (b_lon b).2 (co_values lon).
Proof.
  intros Hb Hlat Hlon Nlat Nlon.
  pose proof (get_bounds_cases obj lat_var lon_var) as H. rewrite Hlat, Hlon in H.
  destruct (co_values lat) as [|x xs] eqn:Elat; [congruence|].
  destruct (co_values lon) as [|y ys] eqn:Elon; [congruence|].
  destruct H as (a1 & a2 & o1 & o2 & H1 & H2 & H3 & H4 & H). rewrite H in Hb.
  injection Hb as <-. simpl. split; by apply np_min_max_encloses.
Qed.

Lemma get_bounds_encloses_witness :
  encloses 10%float 11%float [10; 11]%float ∧ encloses 20%float 21%float [20; 21]%float.
Proof.
  apply (get_bounds_encloses (Demo.series 1%float) "lat" "lon"
           {| b_lat := (10, 11)%float; b_lon := (20, 21)%float |}
           {| co_dim := "y"; co_values := [10; 11]%float |}
           {| co_dim := "x"; co_values := [20; 21]%float |}).
  - reflexivity.
  - reflexivity.
  - reflexivity.
  - repeat constructor.
  - repeat constructor.
Defined.

(** ** [_make_source_grid] *)

(** X3.  Every run of the harmonizer goes one of three ways.  It raises
    and leaves the store exactly as it was; or, given a stored object whose
    [lon] and [lat] have at least two entries and which takes [lon_b], it
    attaches [lon_b] and then raises [ValueError] because [lat_b] does not
    fit, leaving [lon_b] behind; or it attaches both boundaries and returns
    its argument.  Nothing is written before both steps are known. *)
Theorem harmonizer_outcomes (obj : PyVal) (s : State) :
  (∃ e, _make_source_grid obj s = (Raise e, s)) ∨
  ∃ l a lon lat,
    obj = VArr l ∧ st_heap s !! l = Some a ∧
    da_coords a !! "lon" = Some lon ∧ da_coords a !! "lat" = Some lat ∧
    2 ≤ length (co_values lon) ∧ 2 ≤ length (co_values lat) ∧
    dim_fits a "lon_b" "x_b" (S (length (co_values lon))) ∧
    ((¬ dim_fits (with_coord a "lon_b" "x_b" (axis_boundaries (co_values lon)))
                 "lat_b" "y_b" (S (length (co_values lat))) ∧
      _make_source_grid obj s
      = (Raise ValueError,
         set_heap s (<[l := with_coord a "lon_b" "x_b" (axis_boundaries (co_values lon))]>
                       (st_heap s)))) ∨
     (dim_fits (with_coord a "lon_b" "x_b" (axis_boundaries (co_values lon)))
               "lat_b" "y_b" (S (length (co_values lat))) ∧
      _make_source_grid obj s
      = (Ok obj,
         set_heap s (<[l := with_bounds a (axis_boundaries (co_values lon))
                                          (axis_boundaries (co_values lat))]> (st_heap s))))).
Proof. apply make_source_grid_cases. Qed.

(** The second way at an input: the object takes [lon_b], not [lat_b]. *)
Lemma harmonizer_can_leave_lon_b_behind :
  (_make_source_grid (VArr 0) {| st_heap := [Demo.clash 1%float]; st_built := [] |}).1
  = Raise ValueError ∧
  ∃ a', st_heap (_make_source_grid (VArr 0)
                   {| st_heap := [Demo.clash 1%float]; st_built := [] |}).2 !! 0 = Some a' ∧
        da_coords a' !! "lon_b"
        = Some {| co_dim := "x_b"; co_values := [19.5; 20.5; 21.5]%float |} ∧
        da_coords a' !! "lat_b" = None.
Proof.
  split; [vm_compute; reflexivity|]. eexists. split_and!; vm_compute; reflexivity.
Qed.

(** X4.  The harmonizer is idempotent: run again on an object it has
    harmonized, it succeeds and leaves the store as it is (boundaries that
    are already there are recomputed from the centres and overwritten). *)
Theorem harmonizer_idempotent (obj r : PyVal) (s s1 : State) :
  _make_source_grid obj s = (Ok r, s1) →
  _make_source_grid obj s1 = (Ok r, s1).
Proof. apply make_source_grid_twice. Qed.

Lemma harmonizer_idempotent_witness :
  _make_source_grid (VArr 0) (_make_source_grid (VArr 0) Demo.state0).2
  = (Ok (VArr 0), (_make_source_grid (VArr 0) Demo.state0).2).
Proof.
  apply (harmonizer_idempotent (VArr 0) (VArr 0) Demo.state0).
  vm_compute. reflexivity.
Defined.

(** ** [_regrid_to] *)

Section RegridProperties.

Context {lib : Numerics}.
Context {Regridder : Type}.
Context (xe_Regridder : list DataArray → PyVal → Dest → PyVal → result Regridder).
Context (regridder_call : Regridder → list DataArray → PyVal → result DataArray).
Context (grid_2d : float → float → float → float → float → float → result Grid).
Context (qm : DataArray → DataArray → DataArray → string → result DataArray).

Abbreviation regrid_to := (_regrid_to Regridder xe_Regridder regridder_call).
Abbreviation call := (call_regrid_to Regridder xe_Regridder regridder_call).
Abbreviation run := (bcsd Regridder xe_Regridder regridder_call grid_2d qm).

(** X5.  When [_regrid_to] returns, every source it was given carries the
    boundaries of its own axes: [lon_b] and [lat_b] are there and are the
    boundaries of the object's [lon] and [lat], also for a source that is
    listed more than once. *)
Theorem regrid_to_harmonizes_sources (dest : Dest) (method : PyVal) (objs : list PyVal)
    (s s' : State) (outs : list loc) (l : loc) :
  regrid_to dest method objs s = (Ok outs, s') →
  VArr l ∈ objs →
  harmonized_at l s'.
Proof.
  intros H Hin. rewrite regrid_to_batch in H. by eapply regrid_batch_harmonizes.
Qed.

(** X6.  [_regrid_to] leaves alone what is not a source: an object of the
    store that is not among [objs] is the same after the call, whether the
    call returns or raises.  The destination is such an object unless it is
    passed as a source too. *)
Theorem regrid_to_leaves_other_objects (dest : Dest) (method : PyVal) (objs : list PyVal)
    (s : State) (l : loc) :
  VArr l ∉ objs →
  l < length (st_heap s) →
  st_heap (regrid_to dest method objs s).2 !! l = st_heap s !! l.
Proof.
  intros Hnin Hl. rewrite regrid_to_batch. by apply regrid_batch_frame.
Qed.

(** X7.  [_regrid_to] works through the sources in order and does not roll
    back: whatever the outcome, the operators it has built are those of the
    first [k] sources, in their order, for some [k], and at most [k] objects
    were added to the store. *)
Theorem regrid_to_builds_for_a_prefix (dest : Dest) (method : PyVal) (objs : list PyVal)
    (s : State) :
  ∃ k, k ≤ length objs ∧
       st_built (regrid_to dest method objs s).2
       = st_built s ++ ((fun obj => {| bu_source := obj; bu_dest := dest;
                                       bu_method := method |}) <$> take k objs) ∧
       length (st_heap (regrid_to dest method objs s).2) ≤ length (st_heap s) + k.
Proof. rewrite regrid_to_batch. apply regrid_batch_built. Qed.

(** X8.  With the signature [(dest, method='bilinear', *objs)] a call that
    uses a keyword argument regrids nothing: it raises [TypeError], or, with
    no positional argument after [dest], returns the empty list; the store
    stays as it was.  Sources can only follow a positional [method]. *)
Theorem keyword_call_regrids_nothing (dest : Dest) (args : list PyVal)
    (kwargs : list (string * PyVal)) (s : State) :
  kwargs ≠ [] →
  call dest args kwargs s = (Raise TypeError, s) ∨
  (args = [] ∧ call dest args kwargs s = (Ok [], s)).
Proof. apply call_with_keywords. Qed.

(** ** [bcsd] *)

(** X9.  [bcsd] asks for the bounds of the observations first: when
    [get_bounds] raises on [da_obs] (a [lat] or [lon] coordinate is absent or
    empty), [bcsd] raises the same exception and has changed nothing. *)
Theorem bcsd_stops_when_bounds_fail (da_obs da_train da_predict : loc) (var : string)
    (s : State) (a : DataArray) (e : exn) :
  st_heap s !! da_obs = Some a →
  get_bounds a "lat" "lon" = Raise e →
  run da_obs da_train da_predict var s = (Raise e, s) ∧ (e = KeyError ∨ e = ValueError).
Proof.
  intros Hl Hb. split; [by eapply bcsd_stops_at_bounds|].
  pose proof (get_bounds_cases a "lat" "lon") as H.
  destruct (da_coords a !! "lat") as [lat|]; [|left; congruence].
  destruct (co_values lat); [right; congruence|].
  destruct (da_coords a !! "lon") as [lon|]; [|left; congruence].
  destruct (co_values lon); [right; congruence|].
  destruct H as (? & ? & ? & ? & _ & _ & _ & _ & H). congruence.
Qed.

(** X10.  A run of [bcsd] builds at most two regridding operators: for
    [da_train] and then for [da_predict], with the analysis grid as
    destination and the object [da_obs] in the place of the method.  It
    touches no object of the store other than [da_train] and [da_predict]. *)
Theorem bcsd_effects (da_obs da_train da_predict : loc) (var : string) (s : State) :
  (st_built (run da_obs da_train da_predict var s).2 = st_built s ∨
   ∃ g k, k ≤ 2 ∧
     st_built (run da_obs da_train da_predict var s).2
     = st_built s ++ take k [{| bu_source := VArr da_train; bu_dest := DestGrid g;
                                bu_method := VArr da_obs |};
                             {| bu_source := VArr da_predict; bu_dest := DestGrid g;
                                bu_method := VArr da_obs |}]) ∧
  (∀ l, l ≠ da_train → l ≠ da_predict → l < length (st_heap s) →
        st_heap (run da_obs da_train da_predict var s).2 !! l = st_heap s !! l).
Proof.
  destruct (bcsd_final_state xe_Regridder regridder_call grid_2d qm
              da_obs da_train da_predict var s) as [-> | [g ->]].
  - split; [by left | done].
  - destruct (first_call_effect xe_Regridder regridder_call (DestGrid g)
                da_obs da_train da_predict s) as [(k & Hk & Hb) Hframe].
    split; [|done]. right. by exists g, k.
Qed.

End RegridProperties.

Lemma regrid_to_harmonizes_sources_witness :
  harmonized_at 1
    (_regrid_to unit Demo.xe_Regridder Demo.regridder_call (DestArr 0) (VStr "bilinear")
       [VArr 1; VArr 2] Demo.state0).2.
Proof.
  apply (regrid_to_harmonizes_sources Demo.xe_Regridder Demo.regridder_call
           (DestArr 0) (VStr "bilinear") [VArr 1; VArr 2] Demo.state0 _ [3; 4] 1).
  - vm_compute. reflexivity.
  - by left.
Defined.

Lemma regrid_to_leaves_other_objects_witness :
  st_heap (_regrid_to unit Demo.xe_Regridder Demo.regridder_call (DestArr 0)
             (VStr "bilinear") [VArr 1; VArr 2] Demo.state0).2 !! 0
  = st_heap Demo.state0 !! 0.
Proof.
  apply (regrid_to_leaves_other_objects Demo.xe_Regridder Demo.regridder_call
           (DestArr 0) (VStr "bilinear") [VArr 1; VArr 2] Demo.state0 0).
  - intros H. apply elem_of_cons in H as [H|H]; [discriminate|].
    apply elem_of_cons in H as [H|H]; [discriminate|]. by apply not_elem_of_nil in H.
  - simpl. lia.
Defined.

Lemma keyword_call_regrids_nothing_witness :
  call_regrid_to unit Demo.xe_Regridder Demo.regridder_call (DestArr 0) [VArr 1]
    [("method", VStr "bilinear")] Demo.state0 = (Raise TypeError, Demo.state0) ∨
  ([VArr 1] = [] ∧
   call_regrid_to unit Demo.xe_Regridder Demo.regridder_call (DestArr 0) [VArr 1]
     [("method", VStr "bilinear")] Demo.state0 = (Ok [], Demo.state0)).
Proof.
  apply (keyword_call_regrids_nothing Demo.xe_Regridder Demo.regridder_call (DestArr 0)
           [VArr 1] [("method", VStr "bilinear")] Demo.state0).
  discriminate.
Defined.

Lemma bcsd_stops_when_bounds_fail_witness :
  Demo.run 0 1 2 "pr"
    {| st_heap := [Demo.bare 1%float; Demo.series 2%float; Demo.series 3%float];
       st_built := [] |}
  = (Raise KeyError,
     {| st_heap := [Demo.bare 1%float; Demo.series 2%float; Demo.series 3%float];
        st_built := [] |}) ∧
  (KeyError = KeyError ∨ KeyError = ValueError).
Proof.
  apply (bcsd_stops_when_bounds_fail (lib := Demo.numerics)
           Demo.xe_Regridder Demo.regridder_call Demo.grid_2d
           Demo.quantile_mapping_by_group 0 1 2 "pr" _ (Demo.bare 1%float) KeyError).
  - reflexivity.
  - reflexivity.
Defined.

(** ** The branches *)

Section BranchProperties.

Context {lib : Numerics}.
Context (qm : DataArray → DataArray → DataArray → string → result DataArray).

(** X11.  On the temperature-like branch the anomaly is NaN at every cell
    where the quantile-mapped value is NaN or infinite, whatever the rolling
    mean is there: the quantile-mapped series does not drop out of the
    difference. *)
Theorem temperature_anomaly_nan_where_qm_not_finite (var : string) (o t p q : DataArray)
    (clim : Climatology) (i c : nat) (ts : Timestamp) (vq : list float) (x : float) :
  var ≠ "pr" →
  groupby_month_mean t = Ok clim →
  da_rows p ≠ [] →
  qm p t o "time.month" = Ok q →
  same_shape p q →
  da_rows q !! i = Some (ts, vq) →
  vq !! c = Some x →
  PrimFloat.is_finite x = false →
  ∃ anoms row y,
    analysis_anoms qm var o t p = Ok anoms ∧
    da_rows anoms !! i = Some (ts, row) ∧
    row !! c = Some y ∧
    PrimFloat.is_nan y = true.
Proof.
  intros Hvar Hclim Hne Hq Hpq Hi Hc Hx.
  destruct (Forall2_lookup_r _ _ _ _ _ Hpq Hi) as ([ts' vp] & Hp & Hts & Hlen).
  simpl in Hts, Hlen. subst ts'.
  assert (Hr : is_Some (rolling_mean_row 9 true 1 (da_rows p) i ts vp !! c)).
  { apply lookup_lt_is_Some. unfold rolling_mean_row. rewrite length_fmap, length_seq.
    rewrite Hlen. by eapply lookup_lt_Some. }
  destruct Hr as [r Hr].
  eexists _, _, (qm_minus_shifted x r). split_and!.
  - erewrite analysis_anoms_other by done. by apply temperature_anoms_ok.
  - simpl. unfold zip_rows, rolling_mean_rows.
    by rewrite lookup_zip_with, Hi, list_lookup_imap, Hp.
  - simpl. by rewrite lookup_zip_with, Hc, Hr.
  - by apply qm_minus_shifted_not_finite.
Qed.

End BranchProperties.

Lemma temperature_anomaly_nan_where_qm_not_finite_witness :
  ∃ anoms row y,
    Demo.anoms "tmin" (Demo.point infinity) (Demo.point 2%float) (Demo.point 1%float)
    = Ok anoms ∧
    da_rows anoms !! 0 = Some (Demo.jan 2000, row) ∧
    row !! 0 = Some y ∧
    PrimFloat.is_nan y = true.
Proof.
  apply (temperature_anomaly_nan_where_qm_not_finite (lib := Demo.numerics)
           Demo.quantile_mapping_by_group "tmin"
           (Demo.point infinity) (Demo.point 2%float) (Demo.point 1%float)
           (with_rows (Demo.point 1%float) [(Demo.jan 2000, [infinity])])
           {| cl_rows := [(Jan, [2%float])]; cl_coords := da_coords (Demo.point 2%float) |}
           0 0 (Demo.jan 2000) [infinity] infinity).
  - discriminate.
  - reflexivity.
  - discriminate.
  - reflexivity.
  - repeat constructor.
  - reflexivity.
  - reflexivity.
  - reflexivity.
Defined.

(** X12.  On a series that is not empty, the month-grouped rolling mean
    keeps the shape of its input whenever [1 <= min_periods <= window],
    whatever the centring: it returns a series with the same time axis, in
    the same order, and as many cells at every step. *)
Theorem month_grouped_running_mean_keeps_shape {lib : Numerics} (window : nat)
    (center : bool) (min_periods : nat) (p : DataArray) :
  da_rows p ≠ [] →
  1 ≤ min_periods ≤ window →
  ∃ rm, groupby_month_apply (_running_mean window center min_periods) p = Ok rm ∧
        da_time rm = da_time p ∧
        same_shape p rm.
Proof.
  intros Hne [H1 H2]. eexists. split; [by apply groupby_rolling_mean_ok|].
  pose proof (rolling_mean_shape window center min_periods p p) as Hs.
  split; [|done]. symmetry. by apply same_shape_time.
Qed.

Lemma month_grouped_running_mean_keeps_shape_witness :
  ∃ rm, groupby_month_apply (_running_mean (lib := Demo.numerics) 3 false 2)
          (Demo.series 3%float) = Ok rm ∧
        da_time rm = da_time (Demo.series 3%float) ∧
        same_shape (Demo.series 3%float) rm.
Proof.
  apply (month_grouped_running_mean_keeps_shape (lib := Demo.numerics) 3 false 2
           (Demo.series 3%float)).
  - discriminate.
  - lia.
Defined.

(** X20.  A rolling window of length zero, or a [min_periods] of zero, is
    refused: on a series that is not empty the month-grouped rolling mean
    raises [ValueError], whatever the data. *)
Theorem month_grouped_running_mean_refuses_zero {lib : Numerics} (window : nat)
    (center : bool) (min_periods : nat) (p : DataArray) :
  da_rows p ≠ [] →
  window = 0 ∨ min_periods = 0 →
  groupby_month_apply (_running_mean window center min_periods) p = Raise ValueError.
Proof.
  intros Hne Hz. unfold groupby_month_apply.
  destruct (da_rows p) as [|r0 rows] eqn:E; [done|]. rewrite <- E.
  destruct (months_present (da_rows p)) as [|m ms] eqn:Em.
  - assert (Hin : ts_month r0.1 ∈ months_present (da_rows p)).
    { apply months_present_spec. exists r0. split; [rewrite E; by left | done]. }
    rewrite Em in Hin. by apply not_elem_of_nil in Hin.
  - simpl. by rewrite running_mean_refused.
Qed.

Lemma month_grouped_running_mean_refuses_zero_witness :
  groupby_month_apply (_running_mean (lib := Demo.numerics) 0 true 1) (Demo.series 3%float)
  = Raise ValueError.
Proof.
  apply (month_grouped_running_mean_refuses_zero (lib := Demo.numerics) 0 true 1
           (Demo.series 3%float)).
  - discriminate.
  - by left.
Defined.

(** X13.  The rolling mean of the temperature branch at a time step looks
    only at the steps of the same calendar month: two series with one time
    axis that agree at the steps of month [m] have the same rolling mean at
    every step of month [m]. *)
Theorem rolling_mean_ignores_other_months {lib : Numerics} (m : Month) (p p' : DataArray) (i : nat)
    (t : Timestamp) (v : list float) :
  agree_in_month m (da_rows p) (da_rows p') →
  da_rows p !! i = Some (t, v) →
  ts_month t = m →
  ∃ rm rm',
    groupby_month_apply (_running_mean 9 true 1) p = Ok rm ∧
    groupby_month_apply (_running_mean 9 true 1) p' = Ok rm' ∧
    da_rows rm !! i = da_rows rm' !! i.
Proof.
  intros Hag Hi Hm.
  destruct (Forall2_lookup_l _ _ _ _ _ Hag Hi) as (r' & Hi' & _).
  eexists _, _. split_and!.
  - apply groupby_rolling_mean_ok; [|lia|lia]. intros E. by rewrite E in Hi.
  - apply groupby_rolling_mean_ok; [|lia|lia]. intros E. by rewrite E in Hi'.
  - simpl. by eapply agree_rolling_mean.
Qed.

Lemma rolling_mean_ignores_other_months_witness :
  ∃ rm rm',
    groupby_month_apply (_running_mean (lib := Demo.numerics) 9 true 1) (Demo.series 3%float)
    = Ok rm ∧
    groupby_month_apply (_running_mean (lib := Demo.numerics) 9 true 1)
      (with_rows (Demo.series 3%float)
         [(Demo.jan 2000, [3; 3; 3; 3]%float); (Demo.feb 2000, [7; 8; 9; 0]%float)])
    = Ok rm' ∧
    da_rows rm !! 0 = da_rows rm' !! 0.
Proof.
  apply (rolling_mean_ignores_other_months (lib := Demo.numerics) Jan (Demo.series 3%float)
           (with_rows (Demo.series 3%float)
              [(Demo.jan 2000, [3; 3; 3; 3]%float); (Demo.feb 2000, [7; 8; 9; 0]%float)])
           0 (Demo.jan 2000) [3; 3; 3; 3]%float).
  - repeat constructor; simpl; discriminate.
  - reflexivity.
  - reflexivity.
Defined.

(** X14.  The monthly climatology of a series that is not empty, with [n]
    cells at every step, has one entry for every calendar month that occurs
    among the time steps and for no other, in calendar order; the entry of a
    month holds, for every cell, the mean of the values of that cell at the
    steps of that month, in time order. *)
Theorem climatology_has_the_months_present {lib : Numerics} (a : DataArray) (n : nat) :
  da_rows a ≠ [] →
  Forall (fun r : Timestamp * list float => length r.2 = n) (da_rows a) →
  ∃ clim,
    groupby_month_mean a = Ok clim ∧
    sublist (cl_rows clim).*1 all_months ∧
    (∀ m, m ∈ (cl_rows clim).*1 ↔ ∃ r, r ∈ da_rows a ∧ ts_month r.1 = m) ∧
    cl_rows clim
    = (fun m => (m, (fun c => nanmean (values_in_month m c (da_rows a))) <$> seq 0 n))
        <$> (cl_rows clim).*1.
Proof.
  intros Hne Hn. unfold groupby_month_mean.
  destruct (da_rows a) as [|r0 rows] eqn:E; [done|]. rewrite <- E in *. clear Hne.
  eexists. split; [done|]. cbn [cl_rows].
  assert (Hkeys : ((fun m => (m, mean_over_time (group_rows m (da_rows a))))
                     <$> months_present (da_rows a)).*1 = months_present (da_rows a)).
  { rewrite <- list_fmap_compose. apply list_fmap_id. }
  rewrite Hkeys. split_and!.
  - apply filter_sublist.
  - apply months_present_spec.
  - apply list_fmap_ext. intros i m Hm. f_equal. unfold mean_over_time.
    rewrite (width_group m n) by
      (try done; apply group_rows_nonempty; by eapply list_elem_of_lookup_2).
    apply list_fmap_ext. intros j c Hc. apply lookup_seq in Hc as [-> Hj].
    by rewrite (column_values_in_month m _ n).
Qed.

Lemma climatology_has_the_months_present_witness :
  ∃ clim,
    groupby_month_mean (lib := Demo.numerics) (Demo.series 2%float) = Ok clim ∧
    sublist (cl_rows clim).*1 all_months ∧
    (∀ m, m ∈ (cl_rows clim).*1 ↔
          ∃ r, r ∈ da_rows (Demo.series 2%float) ∧ ts_month r.1 = m) ∧
    cl_rows clim
    = (fun m => (m, (fun c => Demo.mean (values_in_month m c (da_rows (Demo.series 2%float))))
                      <$> seq 0 4))
        <$> (cl_rows clim).*1.
Proof.
  apply (climatology_has_the_months_present (lib := Demo.numerics) (Demo.series 2%float) 4).
  - discriminate.
  - repeat constructor.
Defined.

(** ** The fixtures *)

Lemma ascii_lowercase_NoDup : NoDup ascii_lowercase.
Proof. apply (bool_decide_unpack (NoDup ascii_lowercase)). vm_compute. exact I. Qed.

Lemma slice_until_NoDup {A} (l : list A) (n : Z) : NoDup l → NoDup (slice_until l n).
Proof.
  intros H. unfold slice_until.
  destruct (0 <=? n)%Z; (eapply sublist_NoDup; [exact H | apply sublist_take]).
Qed.

Lemma map_result_length {A B} (f : A → result B) (l : list A) (out : list B) :
  map_result f l = Ok out → length out = length l.
Proof.
  revert out. induction l as [|x l IH]; intros out; simpl; [by intros [= <-]|].
  destruct (f x) as [y|]; [|done]. rewrite result_bind_Ok.
  destruct (map_result f l) as [ys|]; [|done]. rewrite result_bind_Ok.
  intros [= <-]. simpl. by rewrite (IH ys).
Qed.

Lemma fmap_keyed_fst {A B} (f : A → B) (l : list A) :
  ((fun x => (x, f x)) <$> l).*1 = l.
Proof. induction l as [|x l IH]; [done|]. rewrite !fmap_cons. simpl. by rewrite IH. Qed.

Lemma fixture_variables (draw : nat → nat → nat → float) (dims : list (string * nat))
    (n cells : nat) (names : list string) :
  Forall (fun v : string * DataArray => fixture_variable n cells v.2)
         (imap (fun k name => (name, fixture_array draw k dims n cells)) names).
Proof.
  apply Forall_lookup. intros i [name a]. rewrite list_lookup_imap.
  destruct (names !! i); [|done]. simpl. intros [= <- <-]. apply fixture_array_variable.
Qed.

Lemma random_grid_data_ok (draw : nat → nat → nat → float)
    (beyond : Z → result (list Timestamp)) (grid_shape : Z * Z) (n_times n_vars : Z) :
  (0 ≤ n_times ≤ 103465)%Z →
  (0 ≤ grid_shape.1)%Z →
  (0 ≤ grid_shape.2)%Z →
  random_grid_data draw beyond grid_shape n_times n_vars
  = Ok (imap (fun k name =>
                (name, fixture_array draw k
                         [("time", Z.to_nat n_times); ("y", Z.to_nat grid_shape.1);
                          ("x", Z.to_nat grid_shape.2)]
                         (Z.to_nat n_times) (Z.to_nat (grid_shape.1 * grid_shape.2))))
             (slice_until ascii_lowercase n_vars)).
Proof.
  intros Hn Hy Hx. unfold random_grid_data.
  rewrite fixture_ok; [| done | by repeat constructor]. simpl.
  by replace (grid_shape.1 * (grid_shape.2 * 1))%Z with (grid_shape.1 * grid_shape.2)%Z by lia.
Qed.

Lemma random_point_data_ok (draw : nat → nat → nat → float)
    (beyond : Z → result (list Timestamp)) (n_points n_times n_vars : Z) :
  (0 ≤ n_times ≤ 103465)%Z →
  (0 ≤ n_points)%Z →
  random_point_data draw beyond n_points n_times n_vars
  = Ok (imap (fun k name =>
                (name, fixture_array draw k
                         [("time", Z.to_nat n_times); ("point", Z.to_nat n_points)]
                         (Z.to_nat n_times) (Z.to_nat n_points)))
             (slice_until ascii_lowercase n_vars)).
Proof.
  intros Hn Hp. unfold random_point_data.
  rewrite fixture_ok; [| done | by repeat constructor]. simpl.
  by replace (n_points * 1)%Z with n_points by lia.
Qed.

Section FixtureProperties.

Context (draw : nat → nat → nat → float).
Context (beyond : Z → result (list Timestamp)).

(** X15.  [random_point_data] with sizes that are not negative (and at most
    103465 days, which end on 2262-04-11) returns one variable per letter of
    [ascii_lowercase\[:n_vars\]], in alphabetical order; every variable has
    [n_times] consecutive daily steps from 1979-01-01 on, [n_points] values
    at every step, and no coordinate besides the time. *)
Theorem random_point_data_shape (n_points n_times n_vars : Z) :
  (0 ≤ n_times ≤ 103465)%Z →
  (0 ≤ n_points)%Z →
  ∃ ds,
    random_point_data draw beyond n_points n_times n_vars = Ok ds ∧
    ds.*1 = slice_until ascii_lowercase n_vars ∧
    NoDup ds.*1 ∧
    Forall (fun v : string * DataArray =>
              fixture_variable (Z.to_nat n_times) (Z.to_nat n_points) v.2) ds.
Proof.
  intros Hn Hp. eexists. split; [by apply random_point_data_ok|].
  rewrite fixture_names.
  split_and!; [done | apply slice_until_NoDup, ascii_lowercase_NoDup | apply fixture_variables].
Qed.

(** X16.  [random_grid_data] likewise: every variable has [n_times] daily
    steps from 1979-01-01 on and [ny * nx] values at every step for a grid
    shape [(ny, nx)], and no [lat] or [lon] coordinate. *)
Theorem random_grid_data_shape (grid_shape : Z * Z) (n_times n_vars : Z) :
  (0 ≤ n_times ≤ 103465)%Z →
  (0 ≤ grid_shape.1)%Z →
  (0 ≤ grid_shape.2)%Z →
  ∃ ds,
    random_grid_data draw beyond grid_shape n_times n_vars = Ok ds ∧
    ds.*1 = slice_until ascii_lowercase n_vars ∧
    NoDup ds.*1 ∧
    Forall (fun v : string * DataArray =>
              fixture_variable (Z.to_nat n_times)
                               (Z.to_nat (grid_shape.1 * grid_shape.2)) v.2) ds.
Proof.
  intros Hn Hy Hx. eexists. split; [by apply random_grid_data_ok|].
  rewrite fixture_names.
  split_and!; [done | apply slice_until_NoDup, ascii_lowercase_NoDup | apply fixture_variables].
Qed.

(** X17.  The number of variables of a fixture follows the slice
    [ascii_lowercase\[:n_vars\]]: [n_vars] of them up to 26, never more than
    26, and for a negative [n_vars] the alphabet without its last [-n_vars]
    letters.  With a number of days in range, a negative [n_points] raises
    [ValueError] as soon as there is a variable to fill, and with no
    variable to fill the empty data set comes back. *)
Theorem random_point_data_edge_cases (n_points n_times n_vars : Z) :
  (∀ ds, random_point_data draw beyond n_points n_times n_vars = Ok ds →
         Z.of_nat (length ds)
         = if (0 <=? n_vars)%Z then Z.min n_vars 26 else Z.max 0 (26 + n_vars)) ∧
  ((0 ≤ n_times ≤ 103465)%Z → (n_points < 0)%Z → (1 ≤ n_vars ∨ -26 < n_vars < 0)%Z →
   random_point_data draw beyond n_points n_times n_vars = Raise ValueError) ∧
  ((0 ≤ n_times ≤ 103465)%Z → (n_vars = 0 ∨ n_vars ≤ -26)%Z →
   random_point_data draw beyond n_points n_times n_vars = Ok []).
Proof.
  assert (Hlen : Z.of_nat (length (slice_until ascii_lowercase n_vars))
                 = if (0 <=? n_vars)%Z then Z.min n_vars 26 else Z.max 0 (26 + n_vars)).
  { rewrite slice_until_length. change (length ascii_lowercase) with 26.
    destruct (0 <=? n_vars)%Z eqn:E; [apply Z.leb_le in E | apply Z.leb_gt in E]; lia. }
  split_and!.
  - intros ds H. rewrite <- Hlen. unfold random_point_data in H.
    destruct (date_range beyond n_times) as [times|]; [|done]. rewrite result_bind_Ok in H.
    apply map_result_length in H. rewrite length_imap in H. by rewrite H.
  - intros Hn Hp Hv. unfold random_point_data. rewrite date_range_ok, result_bind_Ok by done.
    destruct (slice_until ascii_lowercase n_vars) as [|name names] eqn:E.
    + exfalso. simpl in Hlen.
      destruct (0 <=? n_vars)%Z eqn:E'; [apply Z.leb_le in E' | apply Z.leb_gt in E']; lia.
    + simpl. rewrite np_random_random_negative; [done|]. right. by left.
  - intros Hn Hv. unfold random_point_data. rewrite date_range_ok, result_bind_Ok by done.
    destruct (slice_until ascii_lowercase n_vars) as [|name names] eqn:E; [done|].
    exfalso. simpl length in Hlen.
    destruct (0 <=? n_vars)%Z eqn:E'; [apply Z.leb_le in E' | apply Z.leb_gt in E']; lia.
Qed.

(** X18.  A variable of [random_grid_data] covers the twelve calendar
    months, so that its monthly climatology has the twelve entries of a full
    year, exactly when [n_times] is at least 335 (1979-12-01 is the 335th
    day); the default of 100 days gives fewer. *)
Theorem fixture_covers_the_year_from_335_days {lib : Numerics} (grid_shape : Z * Z) (n_times n_vars : Z)
    (ds : list (string * DataArray)) (name : string) (a : DataArray) :
  (0 ≤ n_times ≤ 103465)%Z →
  (0 ≤ grid_shape.1)%Z →
  (0 ≤ grid_shape.2)%Z →
  random_grid_data draw beyond grid_shape n_times n_vars = Ok ds →
  (name, a) ∈ ds →
  (∃ clim, groupby_month_mean a = Ok clim ∧ (cl_rows clim).*1 = all_months) ↔
  (335 ≤ n_times)%Z.
Proof.
  intros Hn Hy Hx Hds Hin. rewrite random_grid_data_ok in Hds by done. injection Hds as <-.
  pose proof (fixture_variables draw
                [("time", Z.to_nat n_times); ("y", Z.to_nat grid_shape.1);
                 ("x", Z.to_nat grid_shape.2)]
                (Z.to_nat n_times) (Z.to_nat (grid_shape.1 * grid_shape.2))
                (slice_until ascii_lowercase n_vars)) as Hall.
  rewrite Forall_forall in Hall. specialize (Hall _ Hin) as (Ht & _ & _). simpl in Ht.
  unfold da_time in Ht.
  pose proof (days_from_months (Z.to_nat n_times) (da_rows a) Ht) as Hm.
  unfold groupby_month_mean. destruct (da_rows a) as [|r rows] eqn:E.
  - split; [by intros (clim & ? & _)|]. intros H335. exfalso.
    destruct (Z.to_nat n_times) as [|n] eqn:En; [lia | done].
  - rewrite <- E in *. split.
    + intros (clim & [= <-] & Hkeys). cbn [cl_rows] in Hkeys.
      rewrite fmap_keyed_fst in Hkeys. apply Hm in Hkeys. lia.
    + intros H335. eexists. split; [done|]. cbn [cl_rows].
      rewrite fmap_keyed_fst. apply Hm. lia.
Qed.

(** X19.  The variables of [random_grid_data] carry no [lat] and no [lon]:
    [get_bounds] raises [KeyError] on them and the harmonizer raises
    [AttributeError], leaving the store as it is. *)
Theorem fixtures_lack_grid_coordinates (grid_shape : Z * Z) (n_times n_vars : Z)
    (ds : list (string * DataArray)) (name : string) (a : DataArray) :
  (0 ≤ n_times ≤ 103465)%Z →
  (0 ≤ grid_shape.1)%Z →
  (0 ≤ grid_shape.2)%Z →
  random_grid_data draw beyond grid_shape n_times n_vars = Ok ds →
  (name, a) ∈ ds →
  get_bounds a "lat" "lon" = Raise KeyError ∧
  ∀ s l, st_heap s !! l = Some a →
         _make_source_grid (VArr l) s = (Raise AttributeError, s).
Proof.
  intros Hn Hy Hx Hds Hin. rewrite random_grid_data_ok in Hds by done. injection Hds as <-.
  pose proof (fixture_variables draw
                [("time", Z.to_nat n_times); ("y", Z.to_nat grid_shape.1);
                 ("x", Z.to_nat grid_shape.2)]
                (Z.to_nat n_times) (Z.to_nat (grid_shape.1 * grid_shape.2))
                (slice_until ascii_lowercase n_vars)) as Hall.
  rewrite Forall_forall in Hall. specialize (Hall _ Hin) as (_ & _ & Hc). simpl in Hc.
  split.
  - unfold get_bounds, da_getitem. by rewrite Hc, lookup_empty.
  - intros s l Hl. eapply make_source_grid_defect; [done|].
    unfold metadata_defect, axis_defect. by rewrite Hc, lookup_empty.
Qed.

End FixtureProperties.

Lemma random_point_data_shape_witness :
  ∃ ds, random_point_data (fun _ _ _ => 0.5%float) (fun _ => Raise ValueError) 3 100 2 = Ok ds ∧
        ds.*1 = slice_until ascii_lowercase 2 ∧ NoDup ds.*1 ∧
        Forall (fun v : string * DataArray =>
                  fixture_variable (Z.to_nat 100) (Z.to_nat 3) v.2) ds.
Proof.
  apply (random_point_data_shape (fun _ _ _ => 0.5%float) (fun _ => Raise ValueError) 3 100 2).
  - lia.
  - lia.
Defined.

Lemma random_grid_data_shape_witness :
  ∃ ds, random_grid_data (fun _ _ _ => 0.5%float) (fun _ => Raise ValueError) (2, 3)%Z 100 1
        = Ok ds ∧
        ds.*1 = slice_until ascii_lowercase 1 ∧ NoDup ds.*1 ∧
        Forall (fun v : string * DataArray =>
                  fixture_variable (Z.to_nat 100) (Z.to_nat (2 * 3)) v.2) ds.
Proof.
  apply (random_grid_data_shape (fun _ _ _ => 0.5%float) (fun _ => Raise ValueError)
           (2, 3)%Z 100 1).
  - lia.
  - simpl. lia.
  - simpl. lia.
Defined.

Lemma fixture_covers_the_year_from_335_days_witness :
  (∃ clim,
      groupby_month_mean (lib := Demo.numerics)
        (fixture_array (fun _ _ _ => 0.5%float) 0 [("time", 365); ("y", 1); ("x", 1)] 365 1)
      = Ok clim ∧
      (cl_rows clim).*1 = all_months) ↔
  (335 ≤ 365)%Z.
Proof.
  apply (fixture_covers_the_year_from_335_days (lib := Demo.numerics)
           (fun _ _ _ => 0.5%float) (fun _ => Raise ValueError) (1, 1)%Z 365 1
           [("a", fixture_array (fun _ _ _ => 0.5%float) 0
                    [("time", 365); ("y", 1); ("x", 1)] 365 1)]
           "a").
  - lia.
  - simpl. lia.
  - simpl. lia.
  - vm_compute. reflexivity.
  - constructor.
Defined.

Lemma fixtures_lack_grid_coordinates_witness :
  get_bounds (fixture_array (fun _ _ _ => 0.5%float) 0 [("time", 2); ("y", 2); ("x", 3)] 2 6)
             "lat" "lon"
  = Raise KeyError ∧
  ∀ s l,
    st_heap s !! l
    = Some (fixture_array (fun _ _ _ => 0.5%float) 0 [("time", 2); ("y", 2); ("x", 3)] 2 6) →
    _make_source_grid (VArr l) s = (Raise AttributeError, s).
Proof.
  apply (fixtures_lack_grid_coordinates (fun _ _ _ => 0.5%float) (fun _ => Raise ValueError)
           (2, 3)%Z 2 1
           [("a", fixture_array (fun _ _ _ => 0.5%float) 0
                    [("time", 2); ("y", 2); ("x", 3)] 2 6)]
           "a").
  - lia.
  - simpl. lia.
  - simpl. lia.
  - vm_compute. reflexivity.
  - constructor.
Defined.

(** ** The code of the two branches *)

Section BranchCode.

Context {lib : Numerics}.
Context (qm : DataArray → DataArray → DataArray → string → result DataArray).

(** X21.  The code of the precipitation branch (lines 118-128), given a
    training climatology that has an entry for the month of every time step
    of the quantile-mapped series: the anomalies keep the time axis of the
    quantile-mapped series, and the value at a time step and a cell is the
    quantile-mapped value divided by the climatology of the step's month at
    that cell.  The division is not guarded: over a zero climatology the
    value is infinite or NaN, and nothing is raised. *)
Theorem precipitation_branch_ratio (o t p q : DataArray) (clim : Climatology)
    (i c : nat) (ts : Timestamp) (v e : list float) (x z : float) :
  groupby_month_mean t = Ok clim →
  qm p t o "time.month" = Ok q →
  Forall (fun r : Timestamp * list float => ts_month r.1 ∈ (cl_rows clim).*1) (da_rows q) →
  widths_match q clim →
  da_rows q !! i = Some (ts, v) →
  v !! c = Some x →
  (ts_month ts, e) ∈ cl_rows clim →
  e !! c = Some z →
  ∃ anoms row,
    analysis_anoms qm "pr" o t p = Ok anoms ∧
    da_time anoms = da_time q ∧
    da_rows anoms !! i = Some (ts, row) ∧
    row !! c = Some (x / z)%float ∧
    (PrimFloat.is_zero z = true → PrimFloat.is_finite (x / z)%float = false).
Proof.
  intros Hclim Hq _ Hw Hi Hc Hin Hz.
  assert (Hne : da_rows q ≠ []) by (intros E; by rewrite E in Hi).
  assert (He : clim_sel clim (ts_month ts) = e) by by eapply clim_sel_member.
  eexists _, _. split_and!.
  - erewrite analysis_anoms_pr by done. by apply groupby_month_div_ok.
  - unfold da_time, ratio_rows. simpl. rewrite <- list_fmap_compose.
    by apply list_fmap_ext.
  - simpl. unfold ratio_rows. by rewrite list_lookup_fmap, Hi.
  - simpl. by rewrite He, lookup_zip_with, Hc, Hz.
  - by apply div_by_zero_not_finite.
Qed.

(** X22.  The code of the temperature-like branch (lines 130-152), given
    a quantile-mapped series of the shape of the predicted series: with
    [rm] the 9-window, month-grouped, centred rolling mean of the predicted
    series ([min_periods=1]), which has the shape of that series, the
    anomalies are, time step by time step and cell by cell, [x - (r + x)]
    in binary64 arithmetic for the quantile-mapped value [x] and the value
    [r] of [rm]. *)
Theorem temperature_branch_difference (var : string) (o t p q : DataArray)
    (clim : Climatology) :
  var ≠ "pr" →
  groupby_month_mean t = Ok clim →
  da_rows p ≠ [] →
  qm p t o "time.month" = Ok q →
  same_shape p q →
  ∃ rm anoms,
    groupby_month_apply (_running_mean 9 true 1) p = Ok rm ∧
    same_shape p rm ∧
    analysis_anoms qm var o t p = Ok anoms ∧
    da_time anoms = da_time q ∧
    ∀ i ts vq, da_rows q !! i = Some (ts, vq) →
      ∃ vr, da_rows rm !! i = Some (ts, vr) ∧
            length vr = length vq ∧
            da_rows anoms !! i
            = Some (ts, zip_with (fun x r => (x - (r + x))%float) vq vr).
Proof.
  intros Hvar Hclim Hne Hq Hpq.
  pose proof (rolling_mean_shape 9 true 1 p p) as Hrm.
  assert (Hqr : same_shape q (with_rows p (rolling_mean_rows 9 true 1 (da_rows p))))
    by (eapply same_shape_trans; [apply same_shape_sym, Hpq | exact Hrm]).
  eexists _, _. split_and!.
  - apply groupby_rolling_mean_ok; [done | lia | lia].
  - exact Hrm.
  - erewrite analysis_anoms_other by done. by apply temperature_anoms_ok.
  - symmetry. apply same_shape_time.
    apply (zip_rows_shape qm_minus_shifted q _ q Hqr).
  - intros i ts vq Hi.
    destruct (Forall2_lookup_l _ _ _ _ _ Hqr Hi) as ([ts' vr] & Hr & Hts & Hlen).
    simpl in Hts, Hlen. subst ts'. exists vr. split_and!; [done | done |].
    simpl. unfold zip_rows. simpl in Hr. by rewrite lookup_zip_with, Hi, Hr.
Qed.

End BranchCode.

Lemma precipitation_branch_ratio_witness :
  ∃ anoms row,
    Demo.anoms "pr" (Demo.point 1%float) (Demo.point 0%float) (Demo.point 1%float)
    = Ok anoms ∧
    da_time anoms = da_time (with_rows (Demo.point 1%float) [(Demo.jan 2000, [1%float])]) ∧
    da_rows anoms !! 0 = Some (Demo.jan 2000, row) ∧
    row !! 0 = Some (1 / 0)%float ∧
    (PrimFloat.is_zero 0 = true → PrimFloat.is_finite (1 / 0)%float = false).
Proof.
  apply (precipitation_branch_ratio (lib := Demo.numerics) Demo.quantile_mapping_by_group
           (Demo.point 1%float) (Demo.point 0%float) (Demo.point 1%float)
           (with_rows (Demo.point 1%float) [(Demo.jan 2000, [1%float])])
           {| cl_rows := [(Jan, [0%float])]; cl_coords := da_coords (Demo.point 0%float) |}
           0 0 (Demo.jan 2000) [1%float] [0%float] 1%float 0%float).
  - reflexivity.
  - reflexivity.
  - repeat constructor.
  - repeat constructor.
  - reflexivity.
  - reflexivity.
  - simpl. constructor.
  - reflexivity.
Defined.

Lemma temperature_branch_difference_witness :
  ∃ rm anoms,
    groupby_month_apply (_running_mean (lib := Demo.numerics) 9 true 1) (Demo.series 3%float)
    = Ok rm ∧
    same_shape (Demo.series 3%float) rm ∧
    Demo.anoms "tmin" (Demo.series 1%float) (Demo.series 2%float) (Demo.series 3%float)
    = Ok anoms ∧
    da_time anoms = da_time (with_rows (Demo.series 3%float) (da_rows (Demo.series 1%float))) ∧
    ∀ i ts vq,
      da_rows (with_rows (Demo.series 3%float) (da_rows (Demo.series 1%float))) !! i
      = Some (ts, vq) →
      ∃ vr, da_rows rm !! i = Some (ts, vr) ∧
            length vr = length vq ∧
            da_rows anoms !! i
            = Some (ts, zip_with (fun x r => (x - (r + x))%float) vq vr).
Proof.
  apply (temperature_branch_difference (lib := Demo.numerics) Demo.quantile_mapping_by_group
           "tmin" (Demo.series 1%float) (Demo.series 2%float) (Demo.series 3%float)
           (with_rows (Demo.series 3%float) (da_rows (Demo.series 1%float)))
           {| cl_rows := [(Jan, [2; 2; 2; 2]%float); (Feb, [2; 2; 2; 2]%float)];
              cl_coords := da_coords (Demo.series 2%float) |}).
  - discriminate.
  - reflexivity.
  - discriminate.
  - reflexivity.
  - repeat constructor.
Defined.
